(** * go-ipset: a wrapper around the [ipset] command-line utility

    Shallow embedding of [ipset.go].  Every operation of the package spawns
    the external binary; the kernel and the binary are outside the package,
    so they appear here as an abstract world that answers each spawned
    command.  The state is threaded explicitly: the world, and the history
    of the subprocesses that were run, in the order they were started. *)

From Stdlib Require Import String List ZArith Lia DecimalString.
Import ListNotations.

Local Open Scope string_scope.
Local Open Scope list_scope.

(** ** Go values used by the package *)

(** A byte slice, as held by a [bytes.Buffer]. *)
Definition bytes := list Byte.byte.

(** Go's [error] values.  The package builds its own errors with
    [errors.New]; the only other errors it hands out come from
    [xml.Unmarshal]. *)
Inductive error : Type :=
| errorString (s : string)
| UnmarshalError (s : string).

Definition errors_New (s : string) : error := errorString s.

(** The [Error()] method. *)
Definition Error (e : error) : string :=
  match e with
  | errorString s => s
  | UnmarshalError s => s
  end.

(** [strconv.FormatInt(n, 10)]. *)
Definition FormatInt10 (n : Z) : string :=
  NilZero.string_of_int (Z.to_int n).

(** ** Records decoded from the listing *)

Record xml_Name : Type := { Space : string; Local : string }.

(** [type SetEntry struct]. *)
Record SetEntry : Type := {
  SetEntry_XMLName : xml_Name;
  Elem : string
}.

(** The anonymous struct of the field [Header]. *)
Record Header_ : Type := {
  Header_XMLName : xml_Name;
  Family : string;
  HashSize : Z;
  Maxelem : Z;
  MemSize : Z;
  References : Z;
  Numentries : Z
}.

(** The anonymous struct of the field [Members]. *)
Record Members_ : Type := {
  Members_XMLName : xml_Name;
  Members_Members : list SetEntry
}.

(** [type Set struct]; [Set] and [Type] are reserved words here. *)
Record Set_ : Type := {
  XMLName : xml_Name;
  Name : string;
  Type_ : string;
  Revision : string;
  Header : Header_;
  Members : Members_
}.

(** [type Sets struct]. *)
Record Sets_ : Type := {
  Sets_XMLName : xml_Name;
  Sets : list Set_
}.

(** [type IPSet struct]. *)
Record IPSet : Type := { Path : string }.

(** ** The subprocess, after [os/exec] *)

(** The fields of [exec.Cmd] the package fills in.  [Stdout] is [true] when
    a writer is attached and [false] when the field is [nil] (the output is
    then discarded).  A buffer is always attached to [Stderr]. *)
Record Cmd : Type := {
  cmd_Path : string;
  cmd_Args : list string;
  cmd_Stdout : bool
}.

(** How a spawned command ended: it ran and exited with a status, or it
    could not be run to completion at all (it was not found, not
    executable, ...). *)
Inductive Termination : Type :=
| Exited (status : Z)
| NotRun (cause : string).

(** What the world hands back for one command: how it ended and what it
    wrote on its two output streams. *)
Record Completed : Type := {
  termination : Termination;
  written_stdout : bytes;
  written_stderr : string
}.

(** The error of [cmd.Run()]: [nil] when the command ran and exited with
    status zero, an [*ExitError] for another status, and some other error
    when it did not run.  The writers the package attaches are in-memory
    buffers, so copying the output of the process into them does not
    fail. *)
Inductive RunError : Type :=
| ExitError (status : Z)
| OtherError (cause : string).

Definition Run_error (t : Termination) : option RunError :=
  match t with
  | Exited 0 => None
  | Exited n => Some (ExitError n)
  | NotRun c => Some (OtherError c)
  end.

(** One subprocess as seen from outside: the command that was started and
    how it completed. *)
Record Exchange : Type := {
  command : Cmd;
  completion : Completed
}.

(** What the package relies on and does not define: the world behind
    [os/exec] (the kernel, the file system and the binary), which answers a
    started command, and [xml.Unmarshal(data, s)] with [s := new(Sets)],
    which gives the filled record or the decoder's error. *)
Class Environment : Type := {
  World : Type;
  spawn : World -> Cmd -> Completed * World;
  xml_Unmarshal : bytes -> error + Sets_
}.

Section Executor.

Context `{Environment}.

(** The state threaded through the package: the world and the
    subprocesses run so far, oldest first. *)
Record Sys : Type := {
  world : World;
  history : list Exchange
}.

(** [cmd.Run()]: the command is started, the world answers, and the text
    the process wrote is appended to the attached buffers. *)
Definition cmd_Run (c : Cmd) (stdout : option bytes) (stderr : string)
           (st : Sys) : option RunError * option bytes * string * Sys :=
  let '(r, w) := spawn (world st) c in
  (Run_error (termination r),
   option_map (fun b => b ++ written_stdout r) stdout,
   (stderr ++ written_stderr r)%string,
   {| world := w;
      history := history st ++ [{| command := c; completion := r |}] |}).

(** [func (set *IPSet) runWithOutput(args []string, stdout io.Writer) error].
    The writer is passed as its contents ([None] for a nil writer) and
    comes back with what the process wrote to it. *)
Definition runWithOutput (set : IPSet) (args : list string)
           (stdout : option bytes) (st : Sys)
  : option error * option bytes * Sys :=
  let args := [Path set] ++ args in
  let stderr := "" in
  let cmd := {| cmd_Path := Path set;
                cmd_Args := args;
                cmd_Stdout := match stdout with Some _ => true | None => false end |} in
  match cmd_Run cmd stdout stderr st with
  | (Some _, stdout, stderr, st) => (Some (errors_New stderr), stdout, st)
  | (None, stdout, _, st) => (None, stdout, st)
  end.

(** [func (set *IPSet) run(args ...string) error]. *)
Definition run (set : IPSet) (args : list string) (st : Sys)
  : option error * Sys :=
  let '(err, _, st) := runWithOutput set args None st in (err, st).

(** *** Mutating subcommands *)

Definition Create (set : IPSet) (name typ : string) (options : list string) :=
  run set (["create"; name; typ] ++ options).

Definition Add (set : IPSet) (name entry : string) (options : list string) :=
  run set (["add"; name; entry] ++ options).

Definition AddUnique (set : IPSet) (name entry : string) (options : list string) :=
  run set (["add"; name; entry; "-exist"] ++ options).

Definition Delete (set : IPSet) (name entry : string) (options : list string) :=
  run set (["del"; name; entry] ++ options).

Definition Test (set : IPSet) (name entry : string) (options : list string) :=
  run set (["test"; name; entry] ++ options).

Definition Destroy (set : IPSet) (name : string) :=
  run set ["destroy"; name].

Definition Save (set : IPSet) (name filename : string) :=
  run set ["save"; name; "-file"; filename].

Definition Restore (set : IPSet) (filename : string) :=
  run set ["restore"; "-file"; filename].

Definition Flush (set : IPSet) (name : string) :=
  run set ["flush"; name].

Definition Rename (set : IPSet) (from to : string) :=
  run set ["rename"; from; to].

Definition Swap (set : IPSet) (from to : string) :=
  run set ["swap"; from; to].

(** *** Listing *)

(** [func (set *IPSet) listXML(suppressMembers bool, args ...string)]. *)
Definition listXML (set : IPSet) (suppressMembers : bool) (args : list string)
           (st : Sys) : (error + list Set_) * Sys :=
  let stdout : bytes := [] in
  let args := ["list"; "-o"; "xml"] ++ args in
  let args := if suppressMembers then args ++ ["-t"] else args in
  match runWithOutput set args (Some stdout) st with
  | (Some err, _, st) => (inl err, st)
  | (None, stdout, st) =>
      match xml_Unmarshal (match stdout with Some b => b | None => [] end) with
      | inl err => (inl err, st)
      | inr s => (inr (Sets s), st)
      end
  end.

(** [func (set *IPSet) List(name string, suppressMembers bool)], which
    returns a set and an error. *)
Definition List (set : IPSet) (name : string) (suppressMembers : bool)
           (st : Sys) : (error + Set_) * Sys :=
  match listXML set suppressMembers [name] st with
  | (inl err, st) => (inl err, st)
  | (inr sets, st) =>
      if negb (length sets =? 1)%nat then
        (inl (errors_New "list named set return results not equal one"), st)
      else
        match sets with
        | s :: _ => (inr s, st)
        | [] =>
            (* [sets[0]] on an empty slice panics; the test above leaves
               exactly one record, so this branch is never taken *)
            (inl (errors_New "runtime error: index out of range"), st)
        end
  end.

(** [func (set *IPSet) ListEntries(name string) (entries []string, err error)]. *)
Definition ListEntries (set : IPSet) (name : string) (st : Sys)
  : (error + list string) * Sys :=
  let entries : list string := [] in
  match List set name false st with
  | (inl err, st) => (inl err, st)
  | (inr s, st) =>
      (inr (fold_left (fun entries m => entries ++ [Elem m])
                      (Members_Members (Members s)) entries), st)
  end.

(** [func (set *IPSet) ListSets(suppressMembers bool) (sets []*Set, err error)]. *)
Definition ListSets (set : IPSet) (suppressMembers : bool) (st : Sys)
  : (error + list Set_) * Sys :=
  listXML set suppressMembers [] st.

(** [func (set *IPSet) ListSetNames() (names []string, err error)]. *)
Definition ListSetNames (set : IPSet) (st : Sys)
  : (error + list string) * Sys :=
  let names : list string := [] in
  match listXML set false ["-n"] st with
  | (inl err, st) => (inl err, st)
  | (inr sets, st) =>
      (inr (fold_left (fun names s => names ++ [Name s]) sets names), st)
  end.

(** [func (set *IPSet) GetReferences(name string) (int64, error)]. *)
Definition GetReferences (set : IPSet) (name : string) (st : Sys)
  : (error + Z) * Sys :=
  match List set name true st with
  | (inl err, st) => (inl err, st)
  | (inr s, st) => (inr (References (Header s)), st)
  end.

(** *** Refresh *)

(** The loop [for _, entry := range entries] of [Refresh], which returns
    from the function at the first failing [AddUnique]. *)
Fixpoint Refresh_entries (set : IPSet) (tempname : string)
         (entries : list string) (st : Sys) : option error * Sys :=
  match entries with
  | [] => (None, st)
  | entry :: entries =>
      match AddUnique set tempname entry [] st with
      | (Some err, st) => (Some err, st)
      | (None, st) => Refresh_entries set tempname entries st
      end
  end.

(** [func (set *IPSet) Refresh(name string, entries ...string) error]. *)
Definition Refresh (set : IPSet) (name : string) (entries : list string)
           (st : Sys) : option error * Sys :=
  let tempname := (name ++ "-swptemp")%string in
  match List set name true st with
  | (inl err, st) => (Some err, st)
  | (inr s, st) =>
      let opts := [ "family"; Family (Header s);
                    "hashsize"; FormatInt10 (HashSize (Header s));
                    "maxelem"; FormatInt10 (Maxelem (Header s)) ] in
      match Create set tempname (Type_ s) opts st with
      | (Some err, st) =>
          let msg := ("cannot create the temp set for swap: " ++ Error err)%string in
          (Some (errors_New msg), st)
      | (None, st) =>
          match Refresh_entries set tempname entries st with
          | (Some err, st) => (Some err, st)
          | (None, st) =>
              match Swap set tempname name st with
              | (Some err, st) => (Some err, st)
              | (None, st) =>
                  match Destroy set tempname st with
                  | (Some err, st) => (Some err, st)
                  | (None, st) => (None, st)
                  end
              end
          end
      end
  end.

(** ** Vocabulary of the specification *)

(** The command [runWithOutput] starts for an argument list: the binary's
    path, then the arguments; [capture] tells whether a writer is attached
    to standard output. *)
Definition invocation (set : IPSet) (args : list string) (capture : bool) : Cmd :=
  {| cmd_Path := Path set; cmd_Args := Path set :: args; cmd_Stdout := capture |}.

(** The subprocess [runWithOutput] runs for [args] in state [st], and the
    state it leaves. *)
Definition exchange (set : IPSet) (args : list string) (capture : bool)
           (st : Sys) : Exchange :=
  {| command := invocation set args capture;
     completion := fst (spawn (world st) (invocation set args capture)) |}.

Definition after (set : IPSet) (args : list string) (capture : bool)
           (st : Sys) : Sys :=
  {| world := snd (spawn (world st) (invocation set args capture));
     history := history st ++ [exchange set args capture st] |}.

(** The arguments [listXML] hands to [runWithOutput]. *)
Definition listing_args (args : list string) (suppressMembers : bool) : list string :=
  ["list"; "-o"; "xml"] ++ args ++ (if suppressMembers then ["-t"] else []).

(** What [listXML] makes of the output of a listing that ran. *)
Definition decoded (x : Exchange) : error + list Set_ :=
  match xml_Unmarshal (written_stdout (completion x)) with
  | inl err => inl err
  | inr s => inr (Sets s)
  end.

(** The error of a name-scoped listing that did not decode to one record. *)
Definition AmbiguousResultError : error :=
  errors_New "list named set return results not equal one".

(** The subprocesses run between two states. *)
Definition performed (st st' : Sys) : list Exchange :=
  skipn (length (history st)) (history st').

Definition commands (xs : list Exchange) : list Cmd := map command xs.

(** [cmd.Run()] gave an error for this subprocess. *)
Definition failed (x : Exchange) : bool :=
  match Run_error (termination (completion x)) with
  | Some _ => true
  | None => false
  end.

Definition stderr_text (x : Exchange) : string := written_stderr (completion x).

Fixpoint final {A : Type} (xs : list A) : option A :=
  match xs with
  | [] => None
  | [x] => Some x
  | _ :: xs => final xs
  end.

(** A call that gives back an error or nil. *)
Definition Step : Type := Sys -> option error * Sys.

(** A call whose value is dropped, only its error kept. *)
Definition only_error {A : Type} (op : Sys -> (error + A) * Sys) : Step :=
  fun st =>
    match op st with
    | (inl err, st) => (Some err, st)
    | (inr _, st) => (None, st)
    end.

(** The operations of the package that spawn the binary. *)
Inductive Operation : Type :=
| OpCreate (name typ : string) (options : list string)
| OpAdd (name entry : string) (options : list string)
| OpAddUnique (name entry : string) (options : list string)
| OpDelete (name entry : string) (options : list string)
| OpTest (name entry : string) (options : list string)
| OpDestroy (name : string)
| OpSave (name filename : string)
| OpRestore (filename : string)
| OpFlush (name : string)
| OpRename (from to : string)
| OpSwap (from to : string)
| OpListSets (suppressMembers : bool)
| OpList (name : string) (suppressMembers : bool)
| OpListEntries (name : string)
| OpListSetNames
| OpGetReferences (name : string)
| OpRefresh (name : string) (entries : list string).

(** Running an operation, as far as its error is concerned. *)
Definition perform (set : IPSet) (op : Operation) : Step :=
  match op with
  | OpCreate name typ options => Create set name typ options
  | OpAdd name entry options => Add set name entry options
  | OpAddUnique name entry options => AddUnique set name entry options
  | OpDelete name entry options => Delete set name entry options
  | OpTest name entry options => Test set name entry options
  | OpDestroy name => Destroy set name
  | OpSave name filename => Save set name filename
  | OpRestore filename => Restore set filename
  | OpFlush name => Flush set name
  | OpRename from to => Rename set from to
  | OpSwap from to => Swap set from to
  | OpListSets suppressMembers => only_error (ListSets set suppressMembers)
  | OpList name suppressMembers => only_error (List set name suppressMembers)
  | OpListEntries name => only_error (ListEntries set name)
  | OpListSetNames => only_error (ListSetNames set)
  | OpGetReferences name => only_error (GetReferences set name)
  | OpRefresh name entries => Refresh set name entries
  end.

(** The operations of the table of mutating subcommands. *)
Definition mutating_subcommand (op : Operation) : bool :=
  match op with
  | OpCreate _ _ _ | OpAdd _ _ _ | OpAddUnique _ _ _ | OpDelete _ _ _
  | OpTest _ _ _ | OpDestroy _ | OpSave _ _ | OpRestore _ | OpFlush _
  | OpRename _ _ | OpSwap _ _ => true
  | _ => false
  end.

(** The arguments a listing operation hands to the binary, and whether it
    asks for the members to be left out; [None] for the other
    operations. *)
Definition listing_request (op : Operation) : option (list string * bool) :=
  match op with
  | OpListSets suppressMembers => Some ([], suppressMembers)
  | OpList name suppressMembers => Some ([name], suppressMembers)
  | OpListEntries name => Some ([name], false)
  | OpListSetNames => Some (["-n"], false)
  | OpGetReferences name => Some ([name], true)
  | _ => None
  end.

(** Steps run in the given order, the run stopping at the first one that
    fails. *)
Fixpoint in_order (steps : list Step) (st : Sys) : option error * Sys :=
  match steps with
  | [] => (None, st)
  | step :: steps =>
      match step st with
      | (Some err, st) => (Some err, st)
      | (None, st) => in_order steps st
      end
  end.

(** A step that is one run of the binary. *)
Definition runs_once (set : IPSet) (step : Step) : Prop :=
  exists args, forall st, step st = run set args st.

(** The five steps of Refresh in the words of the specification: the
    header is read with [List(name, true)]; the steps after it use the
    record it returned. *)
Definition Refresh_steps (set : IPSet) (name : string) (entries : list string)
           (st : Sys) : list Step :=
  let tempname := (name ++ "-swptemp")%string in
  only_error (List set name true) ::
  match fst (List set name true st) with
  | inl _ => []
  | inr s =>
      Create set tempname (Type_ s)
             [ "family"; Family (Header s);
               "hashsize"; FormatInt10 (HashSize (Header s));
               "maxelem"; FormatInt10 (Maxelem (Header s)) ]
      :: map (fun entry => AddUnique set tempname entry []) entries
      ++ [ Swap set tempname name; Destroy set tempname ]
  end.

(** The command that destroys the temporary set of [Refresh]. *)
Definition destroy_temporary (set : IPSet) (name : string) : Cmd :=
  invocation set ["destroy"; (name ++ "-swptemp")%string] false.

(** A step that only adds to the history, and never the command [c]. *)
Definition never_starts (c : Cmd) (step : Step) : Prop :=
  forall st, exists xs,
    history (snd (step st)) = history st ++ xs /\ ~ In c (commands xs).

(** The text Refresh puts in front of the error of its create step. *)
Definition create_failure_prefix : string := "cannot create the temp set for swap: ".

(** The error Refresh gives back when its step number [k] (counted from
    zero) failed with [err]. *)
Definition Refresh_error (k : nat) (err : error) : error :=
  if (k =? 1)%nat then errors_New (create_failure_prefix ++ Error err)%string else err.

(** The message an operation gives back when the last of the [n]
    subprocesses it ran is [x] and [x] failed. *)
Definition failure_message (op : Operation) (n : nat) (x : Exchange) : string :=
  match op with
  | OpRefresh _ _ =>
      if (n =? 2)%nat then (create_failure_prefix ++ stderr_text x)%string
      else stderr_text x
  | _ => stderr_text x
  end.

(** The message of the error an operation gives back when the last of
    the [n] subprocesses it ran failed and wrote nothing to stderr. *)
Definition silent_failure_message (op : Operation) (n : nat) : string :=
  match op with
  | OpRefresh _ _ => if (n =? 2)%nat then create_failure_prefix else ""
  | _ => ""
  end.

(** *** Sentences of the specification as they are worded

    These are the readings that the examples at the end compare with the
    code. *)

(** "Any step failing aborts the sequence and returns that step's error." *)
Definition returns_the_step_error (set : IPSet) (name : string)
           (entries : list string) (st : Sys) : Prop :=
  forall done failing rest st' err,
    Refresh_steps set name entries st = done ++ failing :: rest ->
    in_order done st = (None, st') ->
    fst (failing st') = Some err ->
    Refresh set name entries st = (Some err, snd (failing st')).

(** "[list -o xml [-t] [name]]": the flag before the name. *)
Definition listing_args_in_spec (suppressMembers : bool) (name : option string)
  : list string :=
  ["list"; "-o"; "xml"]
  ++ (if suppressMembers then ["-t"] else [])
  ++ match name with Some n => [n] | None => [] end.

(** "[list -n -o xml]". *)
Definition names_args_in_spec : list string := ["list"; "-n"; "-o"; "xml"].

(** The bare [destroy], which destroys all sets. *)
Definition destroy_all_args : list string := ["destroy"].

(** "A non-zero exit [is] a failure carrying the captured standard-error
    text verbatim as the message", for an operation started in [st]. *)
Definition reports_stderr_verbatim (set : IPSet) (op : Operation) (st : Sys) : Prop :=
  forall x n,
    final (performed st (snd (perform set op st))) = Some x ->
    termination (completion x) = Exited n -> n <> 0%Z ->
    exists err, fst (perform set op st) = Some err /\ Error err = stderr_text x.

(** "If the subprocess fails while writing nothing to stderr, every
    operation returns an error whose message is the empty string." *)
Definition silent_failure_gives_empty_message (set : IPSet) (op : Operation)
           (st : Sys) : Prop :=
  forall x,
    final (performed st (snd (perform set op st))) = Some x ->
    failed x = true -> stderr_text x = "" ->
    exists err, fst (perform set op st) = Some err /\ Error err = "".

End Executor.

(** ** A scripted environment

    A world that plays back a fixed list of completions, one for each
    command that is started, and a decoder that knows a handful of
    listings.  It is what the examples below are run in. *)

Module Scripted.

(** What a command gets once the script is used up: the binary is gone. *)
Definition gone : Completed :=
  {| termination := NotRun "fork/exec /usr/sbin/ipset: no such file or directory";
     written_stdout := [];
     written_stderr := "" |}.

Definition playback (w : list Completed) (c : Cmd) : Completed * list Completed :=
  match w with
  | r :: w => (r, w)
  | [] => (gone, [])
  end.

Definition exit0 (out : string) : Completed :=
  {| termination := Exited 0;
     written_stdout := list_byte_of_string out;
     written_stderr := "" |}.

Definition exit1 (err : string) : Completed :=
  {| termination := Exited 1; written_stdout := []; written_stderr := err |}.

(** Listings as the binary prints them for [-o xml]. *)
Definition header_listing : string :=
  "<ipsets><ipset name='blocklist'><type>hash:ip</type><revision>4</revision><header><family>inet</family><hashsize>1024</hashsize><maxelem>65536</maxelem><memsize>296</memsize><references>1</references><numentries>2</numentries></header><members></members></ipset></ipsets>".

Definition full_listing : string :=
  "<ipsets><ipset name='blocklist'><type>hash:ip</type><revision>4</revision><header><family>inet</family><hashsize>1024</hashsize><maxelem>65536</maxelem><memsize>296</memsize><references>1</references><numentries>2</numentries></header><members><member><elem>10.0.0.1</elem></member><member><elem>10.0.0.2</elem></member></members></ipset></ipsets>".

Definition names_listing : string :=
  "<ipsets><ipset name='blocklist'/><ipset name='allowlist'/></ipsets>".

Definition empty_listing : string := "<ipsets></ipsets>".

Definition tag (local : string) : xml_Name := {| Space := ""; Local := local |}.

Definition absent : xml_Name := {| Space := ""; Local := "" |}.

Definition member (elem : string) : SetEntry :=
  {| SetEntry_XMLName := tag "member"; Elem := elem |}.

Definition blocklist (members : list SetEntry) : Set_ :=
  {| XMLName := tag "ipset";
     Name := "blocklist";
     Type_ := "hash:ip";
     Revision := "4";
     Header := {| Header_XMLName := tag "header";
                  Family := "inet";
                  HashSize := 1024;
                  Maxelem := 65536;
                  MemSize := 296;
                  References := 1;
                  Numentries := 2 |};
     Members := {| Members_XMLName := tag "members";
                   Members_Members := members |} |}.

(** A record of which only the name was listed. *)
Definition named (name : string) : Set_ :=
  {| XMLName := tag "ipset";
     Name := name;
     Type_ := "";
     Revision := "";
     Header := {| Header_XMLName := absent; Family := ""; HashSize := 0;
                  Maxelem := 0; MemSize := 0; References := 0; Numentries := 0 |};
     Members := {| Members_XMLName := absent; Members_Members := [] |} |}.

Definition ipsets (sets : list Set_) : Sets_ :=
  {| Sets_XMLName := tag "ipsets"; Sets := sets |}.

Definition decode (data : bytes) : error + Sets_ :=
  let text := string_of_list_byte data in
  if String.eqb text header_listing then inr (ipsets [blocklist []])
  else if String.eqb text full_listing then
    inr (ipsets [blocklist [member "10.0.0.1"; member "10.0.0.2"]])
  else if String.eqb text names_listing then
    inr (ipsets [named "blocklist"; named "allowlist"])
  else if String.eqb text empty_listing then inr (ipsets [])
  else inl (UnmarshalError "EOF").

Definition env : Environment :=
  {| World := list Completed; spawn := playback; xml_Unmarshal := decode |}.

(** The state in which nothing has run yet and the world will answer with
    [script]. *)
Definition start (script : list Completed) : @Sys env :=
  @Build_Sys env script [].

Definition ipset : IPSet := {| Path := "/usr/sbin/ipset" |}.

(** The subprocess that is the create step of [Refresh] on the set of
    [header_listing], completed by [r]. *)
Definition create_step (r : Completed) : Exchange :=
  {| command :=
       {| cmd_Path := "/usr/sbin/ipset";
          cmd_Args := ["/usr/sbin/ipset"; "create"; "blocklist-swptemp"; "hash:ip";
                       "family"; "inet"; "hashsize"; "1024"; "maxelem"; "65536"];
          cmd_Stdout := false |};
     completion := r |}.

(** A command that cannot be started. *)
Definition cannot_start : Completed :=
  {| termination := NotRun "fork/exec /usr/sbin/ipset: resource temporarily unavailable";
     written_stdout := [];
     written_stderr := "" |}.

(** Texts the binary prints on stderr. *)
Definition already_exists : string :=
  "ipset v7.15: Set cannot be created: set with the same name already exists".

Definition cannot_parse : string :=
  "ipset v7.15: Syntax error: cannot parse 10.0.0.300: resolving to IPv4 address failed".

Definition already_added : string :=
  "ipset v7.15: Element cannot be added to the set: it's already added".

Definition no_such_set : string :=
  "ipset v7.15: The set with the given name does not exist".

End Scripted.

(** ** The constructor, and the vocabulary of the further properties *)

Section Coverage.

Context `{Environment}.

(** [exec.LookPath], which searches the directories of [PATH] for an
    executable file of the given name; it reads the world and starts
    nothing. *)
Variable LookPath : World -> string -> error + string.

(** [func New()], the constructor: the executor bound to the path found
    for [ipset], or the error of the search. *)
Definition New (st : Sys) : error + IPSet :=
  match LookPath (world st) "ipset" with
  | inl err => inl err
  | inr binPath => inr {| Path := binPath |}
  end.

(** The arguments a mutating subcommand hands to [run]; [None] for the
    listing operations and for [Refresh]. *)
Definition subcommand_args (op : Operation) : option (list string) :=
  match op with
  | OpCreate name typ options => Some ("create" :: name :: typ :: options)
  | OpAdd name entry options => Some ("add" :: name :: entry :: options)
  | OpAddUnique name entry options => Some ("add" :: name :: entry :: "-exist" :: options)
  | OpDelete name entry options => Some ("del" :: name :: entry :: options)
  | OpTest name entry options => Some ("test" :: name :: entry :: options)
  | OpDestroy name => Some ["destroy"; name]
  | OpSave name filename => Some ["save"; name; "-file"; filename]
  | OpRestore filename => Some ["restore"; "-file"; filename]
  | OpFlush name => Some ["flush"; name]
  | OpRename from to => Some ["rename"; from; to]
  | OpSwap from to => Some ["swap"; from; to]
  | _ => None
  end.

(** The subcommands of the binary the package uses. *)
Definition subcommands : list string :=
  [ "create"; "add"; "del"; "test"; "destroy"; "save"; "restore"; "flush";
    "rename"; "swap"; "list" ].

(** A command of the shape the package builds: the binary of the executor,
    its path again as the first argument, then one of the subcommands; the
    output is captured for [list] and for nothing else. *)
Definition wrapper_command (set : IPSet) (c : Cmd) : Prop :=
  cmd_Path c = Path set /\
  exists sub rest,
    cmd_Args c = Path set :: sub :: rest /\
    In sub subcommands /\
    (cmd_Stdout c = true <-> sub = "list").

(** The argument lists of the steps of [Refresh] that follow the create
    step: one idempotent add for each entry, the swap, the destroy. *)
Definition Refresh_tail_args (name : string) (entries : list string)
  : list (list string) :=
  let tempname := (name ++ "-swptemp")%string in
  map (fun entry => ["add"; tempname; entry; "-exist"]) entries
  ++ [ ["swap"; tempname; name]; ["destroy"; tempname] ].

(** The commands of a whole run of [Refresh] on a target listed as [s]. *)
Definition Refresh_plan (set : IPSet) (name : string) (entries : list string)
           (s : Set_) : list Cmd :=
  let tempname := (name ++ "-swptemp")%string in
  invocation set ["list"; "-o"; "xml"; name; "-t"] true
  :: invocation set [ "create"; tempname; Type_ s;
                      "family"; Family (Header s);
                      "hashsize"; FormatInt10 (HashSize (Header s));
                      "maxelem"; FormatInt10 (Maxelem (Header s)) ] false
  :: map (fun args => invocation set args false) (Refresh_tail_args name entries).

(** The subprocess did not fail. *)
Definition succeeded (x : Exchange) : Prop := failed x = false.

End Coverage.

(** A search path on which [ipset] is found, and one on which it is not. *)
Module Lookup.

Definition installed (w : list Completed) (file : string) : error + string :=
  if String.eqb file "ipset" then inr "/usr/sbin/ipset"
  else inl (errorString "exec: executable file not found in $PATH").

Definition missing (w : list Completed) (file : string) : error + string :=
  inl (errorString "exec: executable file not found in $PATH").

End Lookup.

(** * Properties *)

Example FormatInt10_1024 : FormatInt10 1024 = "1024".
Proof. reflexivity. Qed.

Example FormatInt10_zero : FormatInt10 0 = "0".
Proof. reflexivity. Qed.

Example FormatInt10_negative : FormatInt10 (-65536) = "-65536".
Proof. reflexivity. Qed.

Section Facts.

Context `{Environment}.
Variable set : IPSet.

(** ** The command runner *)

Lemma runWithOutput_exchange (args : list string) (stdout : option bytes) (st : Sys) :
  let capture := match stdout with Some _ => true | None => false end in
  let x := exchange set args capture st in
  runWithOutput set args stdout st =
  (if failed x then Some (errors_New (stderr_text x)) else None,
   option_map (fun b => b ++ written_stdout (completion x)) stdout,
   after set args capture st).
Proof.
  intros capture x. subst x capture.
  unfold runWithOutput, cmd_Run, after, exchange, failed, stderr_text, invocation.
  cbn [app completion].
  destruct (spawn _ _) as [r w]. cbn [fst snd].
  destruct (Run_error (termination r)); reflexivity.
Qed.

Lemma run_exchange (args : list string) (st : Sys) :
  run set args st =
  (if failed (exchange set args false st)
   then Some (errors_New (stderr_text (exchange set args false st)))
   else None,
   after set args false st).
Proof.
  unfold run. rewrite runWithOutput_exchange. reflexivity.
Qed.

Lemma performed_app (st st' : Sys) (xs : list Exchange) :
  history st' = history st ++ xs -> performed st st' = xs.
Proof.
  intros E. unfold performed. rewrite E.
  rewrite skipn_app, skipn_all, Nat.sub_diag. reflexivity.
Qed.

Lemma performed_after (args : list string) (capture : bool) (st : Sys) :
  performed st (after set args capture st) = [exchange set args capture st].
Proof. apply performed_app. reflexivity. Qed.

Lemma performed_run (args : list string) (st : Sys) :
  performed st (snd (run set args st)) = [exchange set args false st].
Proof. rewrite run_exchange. apply performed_after. Qed.

(** ** Listing *)

Lemma listXML_exchange (suppressMembers : bool) (args : list string) (st : Sys) :
  let x := exchange set (listing_args args suppressMembers) true st in
  listXML set suppressMembers args st =
  (if failed x then inl (errors_New (stderr_text x)) else decoded x,
   after set (listing_args args suppressMembers) true st).
Proof.
  intros x. subst x. unfold listXML, listing_args, decoded.
  replace (if suppressMembers
           then (["list"; "-o"; "xml"] ++ args) ++ ["-t"]
           else ["list"; "-o"; "xml"] ++ args)
    with (["list"; "-o"; "xml"] ++ args ++ (if suppressMembers then ["-t"] else []))
    by (destruct suppressMembers; [rewrite app_assoc | rewrite app_nil_r]; reflexivity).
  rewrite runWithOutput_exchange. cbn [option_map app].
  destruct (failed _); [reflexivity|].
  destruct (xml_Unmarshal _); reflexivity.
Qed.

Lemma List_state (name : string) (suppressMembers : bool) (st : Sys) :
  snd (List set name suppressMembers st) =
  after set (listing_args [name] suppressMembers) true st.
Proof.
  unfold List. rewrite listXML_exchange.
  destruct (failed _); [reflexivity|].
  destruct (decoded _) as [err|sets]; [reflexivity|].
  destruct (negb _); [reflexivity|]. destruct sets; reflexivity.
Qed.

Lemma List_failed (name : string) (suppressMembers : bool) (st : Sys) :
  failed (exchange set (listing_args [name] suppressMembers) true st) = true ->
  fst (List set name suppressMembers st) =
  inl (errors_New (stderr_text (exchange set (listing_args [name] suppressMembers) true st))).
Proof.
  intros F. unfold List. rewrite listXML_exchange, F. reflexivity.
Qed.

Lemma fold_left_append {A B : Type} (f : A -> B) (l : list A) (acc : list B) :
  fold_left (fun acc a => acc ++ [f a]) l acc = acc ++ map f l.
Proof.
  revert acc. induction l as [|a l IH]; intros acc; cbn [fold_left map].
  - now rewrite app_nil_r.
  - rewrite IH, <- app_assoc. reflexivity.
Qed.

(** C3. When the listing ran and its output decoded to [ss], [List] fails
    with [AmbiguousResultError] if [ss] does not hold exactly one record
    (none, or more than one), and returns the record if it holds exactly
    one. *)
Theorem List_exactly_one (name : string) (suppressMembers : bool) (st : Sys)
        (ss : Sets_) :
  failed (exchange set (listing_args [name] suppressMembers) true st) = false ->
  xml_Unmarshal
    (written_stdout
       (completion (exchange set (listing_args [name] suppressMembers) true st)))
  = inr ss ->
  (length (Sets ss) <> 1%nat ->
   fst (List set name suppressMembers st) = inl AmbiguousResultError) /\
  (forall s, Sets ss = [s] -> fst (List set name suppressMembers st) = inr s).
Proof.
  intros F D. unfold List. rewrite listXML_exchange, F.
  unfold decoded. rewrite D. split.
  - intros L. destruct (Nat.eqb_spec (length (Sets ss)) 1); [contradiction|].
    reflexivity.
  - intros s E. rewrite E. reflexivity.
Qed.

(** C4, as amended.  Every listing operation starts the binary once, with
    standard output captured, on the arguments [list -o xml], then the
    arguments of the operation (the set name for [List], [ListEntries]
    and [GetReferences], [-n] for [ListSetNames], nothing for
    [ListSets]), then [-t] last when the members are to be left out. *)
Theorem listing_command (op : Operation) (args : list string)
        (suppressMembers : bool) (st : Sys) :
  listing_request op = Some (args, suppressMembers) ->
  commands (performed st (snd (perform set op st))) =
  [ {| cmd_Path := Path set;
       cmd_Args := [Path set; "list"; "-o"; "xml"] ++ args
                   ++ (if suppressMembers then ["-t"] else []);
       cmd_Stdout := true |} ].
Proof.
  intros R.
  assert (E : snd (perform set op st) =
              after set (listing_args args suppressMembers) true st).
  { destruct op; try discriminate R; cbn in R; inversion R; subst; clear R;
      cbn [perform]; unfold only_error.
    - unfold ListSets. rewrite listXML_exchange.
      destruct (if failed _ then _ else _); reflexivity.
    - rewrite <- List_state. destruct (List _ _ _ _) as [[?|?] ?]; reflexivity.
    - unfold ListEntries. rewrite <- List_state.
      destruct (List _ _ _ _) as [[?|?] ?]; reflexivity.
    - unfold ListSetNames. rewrite listXML_exchange.
      destruct (if failed _ then _ else _); reflexivity.
    - unfold GetReferences. rewrite <- List_state.
      destruct (List _ _ _ _) as [[?|?] ?]; reflexivity. }
  rewrite E, performed_after. reflexivity.
Qed.

(** C5, as amended.  [ListSetNames] starts the binary once, on
    [list -o xml -n] (the flag [-n] comes last); when that listing ran
    and its output decoded to [ss], the result is the [name] field of
    each record of [ss], in the order of [ss]. *)
Theorem ListSetNames_names (st : Sys) :
  commands (performed st (snd (ListSetNames set st))) =
  [ {| cmd_Path := Path set;
       cmd_Args := [Path set; "list"; "-o"; "xml"; "-n"];
       cmd_Stdout := true |} ] /\
  forall ss,
    failed (exchange set ["list"; "-o"; "xml"; "-n"] true st) = false ->
    xml_Unmarshal
      (written_stdout (completion (exchange set ["list"; "-o"; "xml"; "-n"] true st)))
    = inr ss ->
    fst (ListSetNames set st) = inr (map Name (Sets ss)).
Proof.
  unfold ListSetNames. rewrite listXML_exchange. cbn [listing_args app].
  split.
  - destruct (if failed _ then _ else _); cbn [snd];
      rewrite performed_after; reflexivity.
  - intros ss F D. rewrite F. unfold decoded. rewrite D. cbn [fst].
    rewrite fold_left_append. reflexivity.
Qed.

(** C6.  [Destroy] with the empty name starts the binary on three
    arguments, the last of them the empty string; that is not the bare
    [destroy] which destroys all sets. *)
Theorem Destroy_empty_name (st : Sys) :
  commands (performed st (snd (Destroy set "" st))) =
  [ {| cmd_Path := Path set;
       cmd_Args := [Path set; "destroy"; ""];
       cmd_Stdout := false |} ] /\
  commands (performed st (snd (Destroy set "" st))) <>
  [ invocation set destroy_all_args false ].
Proof.
  unfold Destroy. rewrite performed_run. split; [reflexivity|].
  cbn. intros E. inversion E.
Qed.

(** C8.  [AddUnique] starts the binary once, on [add], the name, the
    entry, [-exist], and then the options of the caller. *)
Theorem AddUnique_command (name entry : string) (options : list string) (st : Sys) :
  commands (performed st (snd (AddUnique set name entry options st))) =
  [ {| cmd_Path := Path set;
       cmd_Args := [Path set; "add"; name; entry; "-exist"] ++ options;
       cmd_Stdout := false |} ].
Proof.
  unfold AddUnique. rewrite performed_run. reflexivity.
Qed.

(** C9.  [ListEntries] is [List] with the members not suppressed: when
    that call returns the record [s], [ListEntries] returns, in the same
    state, the [elem] strings of the members of [s], in their order. *)
Theorem ListEntries_elements (name : string) (st st' : Sys) (s : Set_) :
  List set name false st = (inr s, st') ->
  ListEntries set name st = (inr (map Elem (Members_Members (Members s))), st').
Proof.
  intros E. unfold ListEntries. rewrite E, fold_left_append. reflexivity.
Qed.

(** ** Steps in order *)

Lemma in_order_app (a b : list Step) (st : Sys) :
  in_order (a ++ b) st =
  match in_order a st with
  | (Some err, st') => (Some err, st')
  | (None, st') => in_order b st'
  end.
Proof.
  revert st. induction a as [|step a IH]; intros st; cbn [app in_order].
  - reflexivity.
  - destruct (step st) as [[err|] st1]; [reflexivity | apply IH].
Qed.

Lemma in_order_first_failure (done rest : list Step) (failing : Step)
      (st st' : Sys) (err : error) :
  in_order done st = (None, st') ->
  fst (failing st') = Some err ->
  in_order (done ++ failing :: rest) st = (Some err, snd (failing st')).
Proof.
  intros D F. rewrite in_order_app, D. cbn [in_order].
  destruct (failing st') as [[e|] st2]; cbn [fst snd] in *; congruence.
Qed.

Lemma in_order_cons_ok (step : Step) (steps : list Step) (st st' : Sys) :
  in_order (step :: steps) st = (None, st') ->
  exists st1, step st = (None, st1) /\ in_order steps st1 = (None, st').
Proof.
  cbn [in_order]. destruct (step st) as [[err|] st1]; [discriminate|].
  intros E. exists st1. split; [reflexivity | exact E].
Qed.

(** ** Refresh *)

Lemma Refresh_entries_in_order (tempname : string) (entries : list string) (st : Sys) :
  Refresh_entries set tempname entries st =
  in_order (map (fun entry => AddUnique set tempname entry []) entries) st.
Proof.
  revert st. induction entries as [|entry entries IH]; intros st;
    cbn [Refresh_entries map in_order].
  - reflexivity.
  - destruct (AddUnique _ _ _ _ _) as [[err|] st1]; [reflexivity | apply IH].
Qed.

Lemma Refresh_unfold (name : string) (entries : list string) (st : Sys) :
  Refresh set name entries st =
  let tempname := (name ++ "-swptemp")%string in
  match List set name true st with
  | (inl err, st1) => (Some err, st1)
  | (inr s, st1) =>
      match Create set tempname (Type_ s)
                   [ "family"; Family (Header s);
                     "hashsize"; FormatInt10 (HashSize (Header s));
                     "maxelem"; FormatInt10 (Maxelem (Header s)) ] st1 with
      | (Some err, st2) =>
          (Some (errors_New (create_failure_prefix ++ Error err)%string), st2)
      | (None, st2) =>
          in_order (map (fun entry => AddUnique set tempname entry []) entries
                    ++ [ Swap set tempname name; Destroy set tempname ]) st2
      end
  end.
Proof.
  unfold Refresh. cbv zeta.
  destruct (List _ _ _ _) as [[err|s] st1]; [reflexivity|].
  destruct (Create _ _ _ _ _) as [[err|] st2]; [reflexivity|].
  rewrite in_order_app, Refresh_entries_in_order.
  destruct (in_order _ st2) as [[err|] st3]; [reflexivity|].
  cbn [in_order].
  destruct (Swap _ _ _ _) as [[err|] st4]; [reflexivity|].
  destruct (Destroy _ _ _) as [[err|] st5]; reflexivity.
Qed.

(** C1.  [Refresh] leaves the state (the world and the subprocesses run,
    in their order) that its five steps leave when they are run in order
    up to the first failure: [List(name, true)]; [Create] of
    [<name>-swptemp] with the type of the listed record and the options
    family, hashsize and maxelem of its header; [AddUnique] on the
    temporary set for each entry, in input order; [Swap]; [Destroy] of
    the temporary set.  It succeeds exactly when all of them do. *)
Theorem Refresh_sequence (name : string) (entries : list string) (st : Sys) :
  snd (Refresh set name entries st) =
  snd (in_order (Refresh_steps set name entries st) st) /\
  (fst (Refresh set name entries st) = None <->
   fst (in_order (Refresh_steps set name entries st) st) = None).
Proof.
  rewrite Refresh_unfold. unfold Refresh_steps. cbv zeta.
  cbn [in_order]. unfold only_error.
  destruct (List set name true st) as [[err|s] st1]; cbn [fst snd].
  - split; [reflexivity|]. split; discriminate.
  - cbn [in_order].
    destruct (Create _ _ _ _ _) as [[err|] st2]; cbn [fst snd].
    + split; [reflexivity|]. split; discriminate.
    + split; [reflexivity|]. reflexivity.
Qed.

Lemma never_starts_run (c : Cmd) (args : list string) :
  c <> invocation set args false -> never_starts c (run set args).
Proof.
  intros N st. exists [exchange set args false st]. rewrite run_exchange.
  split; [reflexivity|]. cbn. intros [E|[]]. now apply N.
Qed.

Lemma never_starts_in_order (c : Cmd) (steps : list Step) :
  Forall (never_starts c) steps -> never_starts c (in_order steps).
Proof.
  induction 1 as [|step steps Q _ IH]; intros st.
  - exists []. cbn. rewrite app_nil_r. split; [reflexivity | intros []].
  - cbn [in_order]. destruct (Q st) as (xs & Hh & Hn).
    destruct (step st) as [[err|] st1]; cbn [snd] in *.
    + exists xs. now split.
    + destruct (IH st1) as (ys & Hh' & Hn'). exists (xs ++ ys).
      rewrite Hh', Hh, <- app_assoc. split; [reflexivity|].
      unfold commands in *. rewrite map_app, in_app_iff. tauto.
Qed.

Lemma Refresh_steps_before_destroy (name : string) (entries : list string)
      (st : Sys) (done rest : list Step) (failing : Step) :
  Refresh_steps set name entries st = done ++ failing :: rest ->
  rest <> [] ->
  Forall (never_starts (destroy_temporary set name)) (done ++ [failing]).
Proof.
  intros S N. unfold Refresh_steps in S. cbv zeta in S.
  destruct (exists_last N) as (rest' & r & ->).
  assert (L : Forall (never_starts (destroy_temporary set name))
                     (done ++ failing :: rest')).
  { destruct (fst (List set name true st)) as [e|s].
    - exfalso. apply (f_equal (@length Step)) in S.
      rewrite length_app in S. cbn [length] in S. rewrite length_app in S.
      cbn [length] in S. lia.
    - change (done ++ failing :: rest' ++ [r])
        with (done ++ (failing :: rest') ++ [r]) in S.
      rewrite app_assoc in S.
      match type of S with
      | ?a :: ?b :: ?l ++ [?c; ?d] = _ =>
          change (a :: b :: l ++ [c; d]) with ((a :: b :: l) ++ [c] ++ [d]) in S
      end.
      rewrite app_assoc in S. apply app_inj_tail in S. destruct S as [<- _].
      cbn [app]. constructor; [|constructor].
      + intros st0. eexists. split.
        * unfold only_error.
          pose proof (List_state name true st0) as LS.
          destruct (List set name true st0) as [[?|?] ?]; cbn [snd] in *;
            rewrite LS; reflexivity.
        * cbn. intros [E|[]]. discriminate E.
      + apply never_starts_run. discriminate.
      + apply Forall_app. split.
        * apply Forall_forall. intros step I. apply in_map_iff in I.
          destruct I as (entry & <- & _). apply never_starts_run. discriminate.
        * constructor; [|constructor]. apply never_starts_run. discriminate. }
  apply Forall_app in L. destruct L as [Ld Lf]. apply Forall_app. split; [exact Ld|].
  constructor; [|constructor]. now inversion Lf.
Qed.

(** C2, as amended.  When a step of [Refresh] fails after the steps
    before it succeeded, [Refresh] stops in the state that step left, so
    that nothing runs after it, and returns the error of that step; only
    for the create step (step 1, counting from 0) the error returned is a
    new one, whose message is [cannot create the temp set for swap: ]
    followed by the message of the step's error.  Unless the failing step
    is the last one, the command that destroys the temporary set has not
    been started. *)
Theorem Refresh_failure_policy (name : string) (entries : list string) (st st' : Sys)
        (done rest : list Step) (failing : Step) (err : error) :
  Refresh_steps set name entries st = done ++ failing :: rest ->
  in_order done st = (None, st') ->
  fst (failing st') = Some err ->
  Refresh set name entries st =
    (Some (Refresh_error (length done) err), snd (failing st')) /\
  performed (snd (failing st')) (snd (Refresh set name entries st)) = [] /\
  (rest <> [] ->
   ~ In (destroy_temporary set name)
        (commands (performed st (snd (Refresh set name entries st))))).
Proof.
  intros S D F.
  assert (R : Refresh set name entries st =
              (Some (Refresh_error (length done) err), snd (failing st'))).
  { rewrite Refresh_unfold. cbv zeta. unfold Refresh_steps in S. cbv zeta in S.
    destruct done as [|d done].
    - cbn [app] in S. injection S as Ef _. subst failing.
      cbn [in_order] in D. injection D as <-.
      unfold only_error in *.
      destruct (List set name true st) as [[e|s] st1]; cbn [fst snd] in *;
        [|discriminate].
      injection F as ->. reflexivity.
    - cbn [app] in S. injection S as Ed S. subst d.
      apply in_order_cons_ok in D. destruct D as (st1 & L & D).
      unfold only_error in L.
      destruct (List set name true st) as [[e|s] st1'] eqn:EL; [discriminate|].
      injection L as ->. cbn [fst] in S.
      destruct done as [|c done].
      + cbn [app] in S. injection S as Ef _. subst failing.
        cbn [in_order] in D. injection D as <-.
        destruct (Create _ _ _ _ _) as [[e|] st2]; cbn [fst snd] in *;
          [|discriminate].
        injection F as ->. reflexivity.
      + cbn [app] in S. injection S as Ec S. subst c.
        apply in_order_cons_ok in D. destruct D as (st2 & C & D).
        rewrite C, S. cbn [length Refresh_error Nat.eqb].
        now apply in_order_first_failure. }
  split; [exact R|]. rewrite R. cbn [snd]. split.
  - apply performed_app. now rewrite app_nil_r.
  - intros N.
    pose proof (never_starts_in_order _ _
                  (Refresh_steps_before_destroy name entries st done rest failing S N) st)
      as (xs & Hh & Hn).
    rewrite (in_order_first_failure done [] failing st st' err D F) in Hh.
    cbn [snd] in Hh. now rewrite (performed_app _ _ _ Hh).
Qed.

(** ** What an operation reports of a failed subprocess *)

Lemma final_cons {A : Type} (x : A) (ys : list A) :
  ys <> [] -> final (x :: ys) = final ys.
Proof. destruct ys; [congruence | reflexivity]. Qed.

Lemma in_order_runs (steps : list Step) :
  Forall (runs_once set) steps ->
  forall st, exists ys,
    history (snd (in_order steps st)) = history st ++ ys /\
    (steps <> [] -> ys <> []) /\
    (forall x, final ys = Some x -> failed x = true ->
               fst (in_order steps st) = Some (errors_New (stderr_text x))).
Proof.
  induction 1 as [|step steps [args R] _ IH]; intros st.
  - exists []. cbn. rewrite app_nil_r. repeat split; congruence.
  - cbn [in_order]. rewrite R, run_exchange.
    destruct (failed (exchange set args false st)) eqn:F.
    + exists [exchange set args false st]. cbn [fst snd after history final].
      repeat split; [discriminate|]. intros x E _. now injection E as <-.
    + destruct (IH (after set args false st)) as (ys & Hh & Hne & Hf).
      exists (exchange set args false st :: ys). rewrite Hh.
      cbn [after history]. rewrite <- app_assoc. repeat split; [discriminate|].
      intros x E Fx. destruct ys as [|y ys].
      * cbn in E. injection E as <-. congruence.
      * rewrite final_cons in E by discriminate. now apply Hf.
Qed.

Lemma Refresh_tail_runs_once (tempname name : string) (entries : list string) :
  Forall (runs_once set)
         (map (fun entry => AddUnique set tempname entry []) entries
          ++ [ Swap set tempname name; Destroy set tempname ]).
Proof.
  apply Forall_app. split.
  - apply Forall_forall. intros step I. apply in_map_iff in I.
    destruct I as (entry & <- & _). eexists. intros st. reflexivity.
  - repeat constructor; eexists; intros st; reflexivity.
Qed.

Lemma Refresh_history (name : string) (entries : list string) (st : Sys) :
  exists xs,
    history (snd (Refresh set name entries st)) = history st ++ xs /\
    forall x, final xs = Some x -> failed x = true ->
              fst (Refresh set name entries st) =
              Some (errors_New (failure_message (OpRefresh name entries) (length xs) x)).
Proof.
  rewrite Refresh_unfold. cbv zeta.
  pose proof (List_state name true st) as LS.
  pose proof (List_failed name true st) as LF.
  set (x1 := exchange set (listing_args [name] true) true st) in *.
  destruct (List set name true st) as [[err|s] st1]; cbn [fst snd] in LS, LF; subst st1.
  - exists [x1]. split; [reflexivity|]. intros x E F. cbn in E. injection E as <-.
    injection (LF F) as ->. reflexivity.
  - unfold Create. rewrite run_exchange.
    set (st1 := after set (listing_args [name] true) true st).
    set (x2 := exchange set _ false st1).
    destruct (failed x2) eqn:F2.
    + exists [x1; x2]. split; [cbn; now rewrite <- app_assoc|].
      intros x E _. cbn in E. injection E as <-. reflexivity.
    + set (st2 := after set _ false st1).
      destruct (in_order_runs _ (Refresh_tail_runs_once (name ++ "-swptemp") name entries) st2)
        as (ys & Hh & Hne & Hf).
      exists (x1 :: x2 :: ys). split.
      * rewrite Hh. cbn. now rewrite <- !app_assoc.
      * intros x E Fx.
        assert (Ny : ys <> []) by (apply Hne; now destruct entries).
        rewrite !final_cons in E by (congruence || discriminate).
        rewrite (Hf x E Fx). cbn [failure_message length Nat.eqb].
        destruct ys; [congruence | reflexivity].
Qed.

(** A listing operation hands on the error of the listing [L] it wraps,
    and is not a mutating subcommand. *)
Ltac listing_case L :=
  let xs := fresh "xs" in
  let Hh := fresh "Hh" in
  let Hx := fresh "Hx" in
  destruct L as (xs & Hh & Hx); exists xs;
  unfold only_error, ListSets, ListEntries, ListSetNames, GetReferences;
  match goal with
  | |- context [listXML ?s ?b ?a ?st] => destruct (listXML s b a st) as [[?|?] ?]
  | |- context [List ?s ?n ?b ?st] => destruct (List s n b st) as [[?|?] ?]
  end;
  cbn [fst snd] in *;
  (split; [exact Hh|]);
  intros x E; (split; [|discriminate]);
  intros F; specialize (Hx x E F); congruence.

Lemma perform_history (op : Operation) (st : Sys) :
  exists xs,
    history (snd (perform set op st)) = history st ++ xs /\
    forall x, final xs = Some x ->
      (failed x = true ->
       fst (perform set op st) =
       Some (errors_New (failure_message op (length xs) x))) /\
      (failed x = false -> mutating_subcommand op = true ->
       fst (perform set op st) = None).
Proof.
  assert (Run : forall args, exists xs,
    history (snd (run set args st)) = history st ++ xs /\
    forall x, final xs = Some x ->
      (failed x = true ->
       fst (run set args st) = Some (errors_New (stderr_text x))) /\
      (failed x = false -> fst (run set args st) = None)).
  { intros args. exists [exchange set args false st]. rewrite run_exchange.
    split; [reflexivity|]. intros x E. cbn [final] in E. injection E as <-.
    split; intros ->; reflexivity. }
  assert (Lst : forall args suppress, exists xs,
    history (snd (listXML set suppress args st)) = history st ++ xs /\
    forall x, final xs = Some x -> failed x = true ->
      fst (listXML set suppress args st) = inl (errors_New (stderr_text x))).
  { intros args suppress. exists [exchange set (listing_args args suppress) true st].
    rewrite listXML_exchange. split; [reflexivity|].
    intros x E F. cbn [final] in E. injection E as <-. now rewrite F. }
  assert (Lone : forall name suppress, exists xs,
    history (snd (List set name suppress st)) = history st ++ xs /\
    forall x, final xs = Some x -> failed x = true ->
      fst (List set name suppress st) = inl (errors_New (stderr_text x))).
  { intros name suppress. exists [exchange set (listing_args [name] suppress) true st].
    rewrite List_state. split; [reflexivity|].
    intros x E F. cbn [final] in E. injection E as <-. now apply List_failed. }
  destruct op; cbn [perform failure_message mutating_subcommand];
    try (unfold Create, Add, AddUnique, Delete, Test, Destroy, Save,
           Restore, Flush, Rename, Swap;
         match goal with
         | |- context [run set ?args st] =>
             destruct (Run args) as (xs & Hh & Hx); exists xs;
             split; [exact Hh|]; intros x E; destruct (Hx x E) as [Hf Hs];
             split; [exact Hf | intros F _; exact (Hs F)]
         end).
  - listing_case (Lst [] suppressMembers).
  - listing_case (Lone name suppressMembers).
  - listing_case (Lone name false).
  - listing_case (Lst ["-n"] false).
  - listing_case (Lone name true).
  - destruct (Refresh_history name entries st) as (xs & Hh & Hx). exists xs.
    split; [exact Hh|]. intros x E. split; [now apply Hx | discriminate].
Qed.

Lemma failed_nonzero_exit (x : Exchange) (n : Z) :
  termination (completion x) = Exited n -> n <> 0%Z -> failed x = true.
Proof.
  unfold failed. intros -> N. destruct n; [contradiction | reflexivity | reflexivity].
Qed.

Lemma failed_zero_exit (x : Exchange) :
  termination (completion x) = Exited 0 -> failed x = false.
Proof. unfold failed. now intros ->. Qed.

Lemma perform_performed (op : Operation) (st : Sys) (x : Exchange) :
  final (performed st (snd (perform set op st))) = Some x ->
  (failed x = true ->
   fst (perform set op st) =
   Some (errors_New (failure_message op
           (length (performed st (snd (perform set op st)))) x))) /\
  (failed x = false -> mutating_subcommand op = true ->
   fst (perform set op st) = None).
Proof.
  destruct (perform_history op st) as (xs & Hh & Hx).
  rewrite (performed_app _ _ _ Hh). apply Hx.
Qed.

(** C7, as amended.  Let [x] be the last subprocess an operation ran.
    When [x] exited with a non-zero status the operation fails, and the
    message of its error is the text [x] wrote to stderr, as it is; only
    [Refresh], when [x] is its create step (the second subprocess it
    runs), puts [cannot create the temp set for swap: ] in front of that
    text.  When [x] exited with status zero a mutating subcommand
    returns success. *)
Theorem exit_status_report (op : Operation) (st : Sys) (x : Exchange) :
  final (performed st (snd (perform set op st))) = Some x ->
  (forall n, termination (completion x) = Exited n -> n <> 0%Z ->
     fst (perform set op st) =
     Some (errors_New (failure_message op
             (length (performed st (snd (perform set op st)))) x))) /\
  (termination (completion x) = Exited 0 -> mutating_subcommand op = true ->
     fst (perform set op st) = None).
Proof.
  intros E. destruct (perform_performed op st x E) as [Hf Hs]. split.
  - intros n T N. apply Hf. now apply failed_nonzero_exit with n.
  - intros T M. apply Hs; [now apply failed_zero_exit | exact M].
Qed.

(** C10, as amended.  Let [x] be the last subprocess an operation ran.
    When [cmd.Run] gave an error for [x], whatever its cause, the
    operation fails with an error made of the text [x] wrote to stderr
    and of nothing else.  If [x] wrote nothing there, the message of that
    error is the empty string; only for [Refresh], when [x] is its create
    step, it is the bare [cannot create the temp set for swap: ]. *)
Theorem failure_report_keeps_stderr_only (op : Operation) (st : Sys) (x : Exchange) :
  final (performed st (snd (perform set op st))) = Some x ->
  failed x = true ->
  fst (perform set op st) =
    Some (errors_New (failure_message op
            (length (performed st (snd (perform set op st)))) x)) /\
  (stderr_text x = "" ->
   exists err,
     fst (perform set op st) = Some err /\
     Error err =
     silent_failure_message op (length (performed st (snd (perform set op st))))).
Proof.
  intros E F. destruct (perform_performed op st x E) as [Hf _].
  specialize (Hf F). split; [exact Hf|].
  intros S. eexists. split; [exact Hf|].
  unfold failure_message, silent_failure_message. rewrite S.
  destruct op; reflexivity.
Qed.

End Facts.

(** * Further properties of the package *)

Section Coverage_facts.

Context `{Environment}.
Variable set : IPSet.

(** ** The subcommands one by one *)

Lemma perform_subcommand (op : Operation) (args : list string) (st : Sys) :
  subcommand_args op = Some args -> perform set op st = run set args st.
Proof.
  destruct op; cbn [subcommand_args]; intros E; try discriminate E;
    injection E as <-; reflexivity.
Qed.

Lemma perform_listing_state (op : Operation) (args : list string)
      (suppressMembers : bool) (st : Sys) :
  listing_request op = Some (args, suppressMembers) ->
  snd (perform set op st) = after set (listing_args args suppressMembers) true st.
Proof.
  destruct op; cbn [listing_request]; intros E; try discriminate E;
    injection E as <- <-; cbn [perform]; unfold only_error.
  - unfold ListSets. rewrite listXML_exchange.
    destruct (if failed _ then _ else _); reflexivity.
  - rewrite <- List_state. destruct (List _ _ _ _) as [[?|?] ?]; reflexivity.
  - unfold ListEntries. rewrite <- List_state.
    destruct (List _ _ _ _) as [[?|?] ?]; reflexivity.
  - unfold ListSetNames. rewrite listXML_exchange.
    destruct (if failed _ then _ else _); reflexivity.
  - unfold GetReferences. rewrite <- List_state.
    destruct (List _ _ _ _) as [[?|?] ?]; reflexivity.
Qed.

(** What a name-scoped listing gives once it ran and decoded. *)
Lemma List_decoded (name : string) (suppressMembers : bool) (st : Sys) (ss : Sets_) :
  failed (exchange set (listing_args [name] suppressMembers) true st) = false ->
  xml_Unmarshal
    (written_stdout
       (completion (exchange set (listing_args [name] suppressMembers) true st)))
  = inr ss ->
  List set name suppressMembers st =
  (match Sets ss with
   | [s] => inr s
   | _ => inl AmbiguousResultError
   end,
   after set (listing_args [name] suppressMembers) true st).
Proof.
  intros F D. unfold List. rewrite listXML_exchange, F. unfold decoded. rewrite D.
  destruct (Sets ss) as [|s [|s' l]]; reflexivity.
Qed.

(** X1.  A mutating subcommand starts the binary exactly once, without
    capturing its output, on the subcommand word, the positional
    arguments and then the options of the caller as they were given (none,
    or an odd number of them, included). *)
Theorem subcommand_command (op : Operation) (args : list string) (st : Sys) :
  subcommand_args op = Some args ->
  commands (performed st (snd (perform set op st))) =
  [ {| cmd_Path := Path set; cmd_Args := Path set :: args; cmd_Stdout := false |} ].
Proof.
  intros E. rewrite (perform_subcommand op args st E), performed_run. reflexivity.
Qed.

(** X2.  When the listing of [ListSets] ran and its output decoded, the
    result is all the decoded records in their order, whatever their
    number: no records at all is a success with an empty result. *)
Theorem ListSets_all_records (suppressMembers : bool) (st : Sys) (ss : Sets_) :
  failed (exchange set (listing_args [] suppressMembers) true st) = false ->
  xml_Unmarshal
    (written_stdout
       (completion (exchange set (listing_args [] suppressMembers) true st)))
  = inr ss ->
  fst (ListSets set suppressMembers st) = inr (Sets ss).
Proof.
  intros F D. unfold ListSets. rewrite listXML_exchange, F. unfold decoded.
  now rewrite D.
Qed.

(** X3.  [GetReferences] lists the set with its members suppressed; when
    that listing ran and decoded to exactly one record the result is the
    reference count of its header, and when it decoded to no record or to
    several the call fails with [AmbiguousResultError]. *)
Theorem GetReferences_count (name : string) (st : Sys) (ss : Sets_) :
  failed (exchange set ["list"; "-o"; "xml"; name; "-t"] true st) = false ->
  xml_Unmarshal
    (written_stdout (completion (exchange set ["list"; "-o"; "xml"; name; "-t"] true st)))
  = inr ss ->
  (forall s, Sets ss = [s] ->
     fst (GetReferences set name st) = inr (References (Header s))) /\
  (length (Sets ss) <> 1%nat ->
     fst (GetReferences set name st) = inl AmbiguousResultError).
Proof.
  intros F D. unfold GetReferences.
  rewrite (List_decoded name true st ss F D). split.
  - intros s ->. reflexivity.
  - intros L. destruct (Sets ss) as [|s [|s' l]]; [reflexivity | | reflexivity].
    now contradiction L.
Qed.

(** X4.  [ListEntries] lists the set with its members; when that listing
    ran and decoded to exactly one record the result is the elements of
    its members in their order (the empty list for a set without
    members), and when it decoded to no record or to several the call
    fails with [AmbiguousResultError] instead of giving an empty list. *)
Theorem ListEntries_of_listing (name : string) (st : Sys) (ss : Sets_) :
  failed (exchange set ["list"; "-o"; "xml"; name] true st) = false ->
  xml_Unmarshal
    (written_stdout (completion (exchange set ["list"; "-o"; "xml"; name] true st)))
  = inr ss ->
  (forall s, Sets ss = [s] ->
     fst (ListEntries set name st) = inr (map Elem (Members_Members (Members s)))) /\
  (length (Sets ss) <> 1%nat ->
     fst (ListEntries set name st) = inl AmbiguousResultError).
Proof.
  intros F D. unfold ListEntries.
  rewrite (List_decoded name false st ss F D). split.
  - intros s ->. cbn [fst]. now rewrite fold_left_append.
  - intros L. destruct (Sets ss) as [|s [|s' l]]; [reflexivity | | reflexivity].
    now contradiction L.
Qed.

(** X5.  When the subprocess of a listing operation ran but its output
    does not decode, the operation fails with the error of the decoder
    itself, neither wrapped nor replaced. *)
Theorem listing_decode_error (op : Operation) (args : list string)
        (suppressMembers : bool) (st : Sys) (err : error) :
  listing_request op = Some (args, suppressMembers) ->
  failed (exchange set (listing_args args suppressMembers) true st) = false ->
  xml_Unmarshal
    (written_stdout
       (completion (exchange set (listing_args args suppressMembers) true st)))
  = inl err ->
  fst (perform set op st) = Some err.
Proof.
  intros R F D.
  assert (X : fst (listXML set suppressMembers args st) = inl err).
  { rewrite listXML_exchange, F. unfold decoded. now rewrite D. }
  assert (L : forall name, args = [name] ->
                fst (List set name suppressMembers st) = inl err).
  { intros name ->. unfold List.
    destruct (listXML set suppressMembers [name] st) as [[e|v] st1];
      cbn [fst] in *; congruence. }
  destruct op; cbn [listing_request] in R; try discriminate R;
    injection R as <- <-; cbn [perform]; unfold only_error.
  - unfold ListSets. destruct (listXML _ _ _ _) as [[e|v] st1]; cbn [fst] in *; congruence.
  - specialize (L name eq_refl).
    destruct (List _ _ _ _) as [[e|v] st1]; cbn [fst] in *; congruence.
  - unfold ListEntries. specialize (L name eq_refl).
    destruct (List _ _ _ _) as [[e|v] st1]; cbn [fst] in *; congruence.
  - unfold ListSetNames.
    destruct (listXML _ _ _ _) as [[e|v] st1]; cbn [fst] in *; congruence.
  - unfold GetReferences. specialize (L name eq_refl).
    destruct (List _ _ _ _) as [[e|v] st1]; cbn [fst] in *; congruence.
Qed.

(** ** The subprocesses of Refresh *)

Lemma removelast_cons_Forall {A : Type} (P : A -> Prop) (x : A) (ys : list A) :
  P x -> Forall P (removelast ys) -> Forall P (removelast (x :: ys)).
Proof.
  intros Px Pys. destruct ys as [|y ys]; [constructor|].
  change (removelast (x :: y :: ys)) with (x :: removelast (y :: ys)).
  now constructor.
Qed.

Lemma final_In {A : Type} (xs : list A) (x : A) : final xs = Some x -> In x xs.
Proof.
  induction xs as [|a [|b xs] IH]; cbn [final]; intros E.
  - discriminate E.
  - injection E as ->. now left.
  - right. now apply IH.
Qed.

Lemma Forall_prefix {A : Type} (P : A -> Prop) (n : nat) (l : list A) :
  Forall P l -> Forall P (firstn n l).
Proof.
  intros F. rewrite <- (firstn_skipn n l) in F. now apply Forall_app in F.
Qed.

(** Runs of the binary in a row, up to the first that fails. *)
Lemma in_order_runs_trace (argss : list (list string)) (st : Sys) :
  exists xs,
    history (snd (in_order (map (run set) argss) st)) = history st ++ xs /\
    commands xs = firstn (length xs) (map (fun args => invocation set args false) argss) /\
    length xs <= length argss /\
    Forall succeeded (removelast xs) /\
    (fst (in_order (map (run set) argss) st) = None ->
     length xs = length argss /\ Forall succeeded xs) /\
    (forall err, fst (in_order (map (run set) argss) st) = Some err ->
     exists x, final xs = Some x /\ failed x = true).
Proof.
  revert st. induction argss as [|args argss IH]; intros st.
  - exists []. cbn. rewrite app_nil_r. repeat split; try constructor.
    discriminate.
  - cbn [map in_order]. rewrite run_exchange.
    destruct (failed (exchange set args false st)) eqn:F.
    + exists [exchange set args false st]. cbn [fst snd after history length].
      split; [reflexivity|]. split; [reflexivity|]. split; [lia|].
      split; [constructor|]. split; [discriminate|].
      intros err _. eexists. split; [reflexivity | exact F].
    + destruct (IH (after set args false st)) as (ys & Hh & Hc & Hl & Hr & Hok & Hko).
      exists (exchange set args false st :: ys). rewrite Hh.
      cbn [after history]. rewrite <- app_assoc.
      split; [reflexivity|].
      split; [cbn [commands map length firstn]; unfold commands in Hc; now rewrite Hc|].
      split; [cbn [length]; lia|].
      split; [now apply removelast_cons_Forall|].
      split.
      * intros E. destruct (Hok E) as [L A]. cbn [length]. split; [lia|].
        now constructor.
      * intros err E. destruct (Hko err E) as (x & Fx & Kx). exists x.
        split; [|exact Kx].
        rewrite final_cons; [exact Fx|]. intros ->. discriminate Fx.
Qed.

Lemma Refresh_tail_in_order (name : string) (entries : list string) :
  map (fun entry => AddUnique set (name ++ "-swptemp") entry []) entries
  ++ [ Swap set (name ++ "-swptemp") name; Destroy set (name ++ "-swptemp") ]
  = map (run set) (Refresh_tail_args name entries).
Proof.
  unfold Refresh_tail_args. cbv zeta. rewrite map_app, map_map. reflexivity.
Qed.

Lemma length_Refresh_plan (name : string) (entries : list string) (s : Set_) :
  length (Refresh_plan set name entries s) = length entries + 4.
Proof.
  unfold Refresh_plan, Refresh_tail_args. cbv zeta. cbn [length].
  rewrite length_map, length_app, length_map. cbn [length]. lia.
Qed.

Lemma List_ok_not_failed (name : string) (suppressMembers : bool) (st : Sys) (s : Set_) :
  fst (List set name suppressMembers st) = inr s ->
  failed (exchange set (listing_args [name] suppressMembers) true st) = false.
Proof.
  intros E. destruct (failed _) eqn:F; [|reflexivity].
  rewrite (List_failed set name suppressMembers st F) in E. discriminate E.
Qed.

(** [Refresh] on a target that cannot be listed. *)
Lemma Refresh_unlisted (name : string) (entries : list string) (st : Sys) (err : error) :
  fst (List set name true st) = inl err ->
  Refresh set name entries st = (Some err, after set (listing_args [name] true) true st).
Proof.
  intros E. rewrite Refresh_unfold. cbv zeta.
  pose proof (List_state set name true st) as LS.
  destruct (List set name true st) as [[e|s] st1]; cbn [fst snd] in *;
    [|discriminate E].
  injection E as ->. now subst st1.
Qed.

(** [Refresh] on a target that was listed as [s]. *)
Lemma Refresh_trace (name : string) (entries : list string) (st : Sys) (s : Set_) :
  fst (List set name true st) = inr s ->
  exists xs,
    history (snd (Refresh set name entries st)) = history st ++ xs /\
    commands xs = firstn (length xs) (Refresh_plan set name entries s) /\
    2 <= length xs <= length entries + 4 /\
    Forall succeeded (removelast xs) /\
    (fst (Refresh set name entries st) = None ->
     length xs = length entries + 4 /\ Forall succeeded xs) /\
    (forall err, fst (Refresh set name entries st) = Some err ->
     exists x, final xs = Some x /\ failed x = true).
Proof.
  intros E. pose proof (List_ok_not_failed name true st s E) as F1.
  rewrite Refresh_unfold. cbv zeta.
  pose proof (List_state set name true st) as LS.
  destruct (List set name true st) as [[e|s'] st1]; cbn [fst snd] in *;
    [discriminate E|].
  injection E as ->. subst st1.
  set (x1 := exchange set (listing_args [name] true) true st) in *.
  set (st1 := after set (listing_args [name] true) true st).
  unfold Create. rewrite run_exchange.
  set (x2 := exchange set _ false st1).
  destruct (failed x2) eqn:F2.
  - exists [x1; x2]. cbn [fst snd length].
    split; [cbn; now rewrite <- app_assoc|].
    split; [reflexivity|]. split; [lia|].
    split; [repeat constructor; exact F1|]. split; [discriminate|].
    intros err _. exists x2. split; [reflexivity | exact F2].
  - set (st2 := after set _ false st1).
    rewrite Refresh_tail_in_order.
    destruct (in_order_runs_trace (Refresh_tail_args name entries) st2)
      as (ys & Hh & Hc & Hl & Hr & Hok & Hko).
    assert (Ln : length (Refresh_tail_args name entries) = length entries + 2).
    { unfold Refresh_tail_args. cbv zeta. rewrite length_app, length_map.
      reflexivity. }
    exists (x1 :: x2 :: ys). rewrite Hh.
    split; [cbn; now rewrite <- !app_assoc|].
    split.
    { unfold Refresh_plan. cbv zeta. cbn [length firstn commands map].
      unfold commands in Hc. now rewrite Hc. }
    split; [cbn [length]; lia|].
    split; [now repeat apply removelast_cons_Forall|].
    split.
    + intros N. destruct (Hok N) as [L A]. cbn [length]. split; [lia|].
      now repeat constructor.
    + intros err N. destruct (Hko err N) as (x & Fx & Kx). exists x.
      split; [|exact Kx].
      assert (Ny : ys <> []) by (intros ->; discriminate Fx).
      rewrite !final_cons; [exact Fx | exact Ny | discriminate].
Qed.

(** X6.  When [Refresh] succeeds, the subprocesses it ran are, in this
    order and with nothing else: the listing of the target with its
    members suppressed; the creation of [<name>-swptemp] with the type of
    the listed record and the family, hashsize and maxelem of its header,
    the two sizes in decimal; one [add ... -exist] for each entry, in
    input order, duplicates included; the swap; the destruction of the
    temporary set.  All of them succeeded. *)
Theorem Refresh_success_plan (name : string) (entries : list string) (st : Sys) :
  fst (Refresh set name entries st) = None ->
  exists s,
    fst (List set name true st) = inr s /\
    commands (performed st (snd (Refresh set name entries st))) =
      Refresh_plan set name entries s /\
    Forall succeeded (performed st (snd (Refresh set name entries st))).
Proof.
  intros N. destruct (fst (List set name true st)) as [err|s] eqn:E.
  - rewrite (Refresh_unlisted name entries st err E) in N. discriminate N.
  - exists s. split; [reflexivity|].
    destruct (Refresh_trace name entries st s E) as (xs & Hh & Hc & _ & _ & Hok & _).
    rewrite (performed_app _ _ _ Hh). destruct (Hok N) as [L A].
    split; [|exact A].
    rewrite Hc, L, <- (length_Refresh_plan name entries s). apply firstn_all.
Qed.

(** X7.  When the target was listed as [s], the subprocesses [Refresh]
    ran are an initial segment of its whole plan for [s], at least the
    listing and the creation and at most four more than there are
    entries; all of them but the last succeeded, and [Refresh] succeeds
    exactly when the last did too. *)
Theorem Refresh_runs_prefix (name : string) (entries : list string) (st : Sys) (s : Set_) :
  fst (List set name true st) = inr s ->
  let xs := performed st (snd (Refresh set name entries st)) in
  commands xs = firstn (length xs) (Refresh_plan set name entries s) /\
  2 <= length xs <= length entries + 4 /\
  Forall succeeded (removelast xs) /\
  (fst (Refresh set name entries st) = None <-> Forall succeeded xs).
Proof.
  intros E xs. subst xs.
  destruct (Refresh_trace name entries st s E) as (xs & Hh & Hc & Hl & Hr & Hok & Hko).
  rewrite (performed_app _ _ _ Hh).
  split; [exact Hc|]. split; [exact Hl|]. split; [exact Hr|]. split.
  - intros N. now apply Hok.
  - intros A. destruct (fst (Refresh set name entries st)) as [err|] eqn:R;
      [|reflexivity].
    destruct (Hko err eq_refl) as (x & Fx & Kx).
    apply final_In in Fx. rewrite Forall_forall in A. specialize (A x Fx).
    unfold succeeded in A. congruence.
Qed.

(** X8.  When the target cannot be listed (the listing fails, does not
    decode, or does not hold exactly one record), [Refresh] returns the
    error of [List] and has started the listing only: no temporary set
    is created. *)
Theorem Refresh_unlisted_target (name : string) (entries : list string)
        (st : Sys) (err : error) :
  fst (List set name true st) = inl err ->
  fst (Refresh set name entries st) = Some err /\
  commands (performed st (snd (Refresh set name entries st))) =
  [ {| cmd_Path := Path set;
       cmd_Args := [Path set; "list"; "-o"; "xml"; name; "-t"];
       cmd_Stdout := true |} ].
Proof.
  intros E. rewrite (Refresh_unlisted name entries st err E). cbn [fst snd].
  split; [reflexivity|]. rewrite performed_after. reflexivity.
Qed.

(** ** The shape of every command *)

Lemma subcommand_args_shape (op : Operation) (args : list string) :
  subcommand_args op = Some args ->
  exists sub rest, args = sub :: rest /\ In sub subcommands /\ sub <> "list".
Proof.
  destruct op; cbn [subcommand_args]; intros E; try discriminate E;
    injection E as <-; do 2 eexists;
    (split; [reflexivity|]); (split; [cbn; tauto | discriminate]).
Qed.

Lemma wrapper_command_subcommand (sub : string) (rest : list string) :
  In sub subcommands -> sub <> "list" ->
  wrapper_command set (invocation set (sub :: rest) false).
Proof.
  intros I N. split; [reflexivity|]. exists sub, rest.
  split; [reflexivity|]. split; [exact I|].
  cbn. split; [discriminate | intros E; contradiction].
Qed.

Lemma wrapper_command_listing (args : list string) (suppressMembers : bool) :
  wrapper_command set (invocation set (listing_args args suppressMembers) true).
Proof.
  split; [reflexivity|]. do 2 eexists. split; [reflexivity|].
  split; [cbn; tauto|]. split; reflexivity.
Qed.

Lemma wrapper_command_plan (name : string) (entries : list string) (s : Set_) :
  Forall (wrapper_command set) (Refresh_plan set name entries s).
Proof.
  unfold Refresh_plan, Refresh_tail_args. cbv zeta.
  constructor; [apply (wrapper_command_listing [name] true)|].
  constructor; [apply wrapper_command_subcommand; [cbn; tauto | discriminate]|].
  rewrite map_app, map_map. apply Forall_app. split.
  - apply Forall_forall. intros c I. apply in_map_iff in I.
    destruct I as (entry & <- & _).
    apply wrapper_command_subcommand; [cbn; tauto | discriminate].
  - repeat constructor;
      (apply wrapper_command_subcommand; [cbn; tauto | discriminate]).
Qed.

Lemma operation_kinds (op : Operation) :
  (exists args, subcommand_args op = Some args) \/
  (exists args suppressMembers, listing_request op = Some (args, suppressMembers)) \/
  (exists name entries, op = OpRefresh name entries).
Proof.
  destruct op; cbn; eauto.
Qed.

Lemma perform_wrapper_commands (op : Operation) (st : Sys) :
  Forall (wrapper_command set) (commands (performed st (snd (perform set op st)))).
Proof.
  destruct (operation_kinds op) as [(args & E) | [(args & b & E) | (name & entries & ->)]].
  - rewrite (perform_subcommand op args st E), performed_run.
    destruct (subcommand_args_shape op args E) as (sub & rest & -> & I & N).
    repeat constructor. now apply wrapper_command_subcommand.
  - rewrite (perform_listing_state op args b st E), performed_after.
    repeat constructor. apply wrapper_command_listing.
  - cbn [perform]. destruct (fst (List set name true st)) as [err|s] eqn:L.
    + rewrite (Refresh_unlisted name entries st err L). cbn [snd].
      rewrite performed_after. repeat constructor. apply wrapper_command_listing.
    + destruct (Refresh_trace name entries st s L) as (xs & Hh & Hc & _).
      rewrite (performed_app _ _ _ Hh), Hc.
      apply Forall_prefix, wrapper_command_plan.
Qed.

(** X9.  Whatever the operation, [Refresh] included, and whatever the
    world answers, every subprocess it starts is the binary of the
    executor, with the path of the binary as its first argument and one
    of the eleven subcommands [create], [add], [del], [test], [destroy],
    [save], [restore], [flush], [rename], [swap], [list] as its second;
    the output is captured when the subcommand is [list] and only then.
    Every operation starts exactly one subprocess, except [Refresh], which
    starts at least one and at most four more than it has entries. *)
Theorem operations_start_wrapper_commands (op : Operation) (st : Sys) :
  Forall (wrapper_command set) (commands (performed st (snd (perform set op st)))) /\
  match op with
  | OpRefresh _ entries =>
      1 <= length (performed st (snd (perform set op st))) <= length entries + 4
  | _ => length (performed st (snd (perform set op st))) = 1
  end.
Proof.
  split; [apply perform_wrapper_commands|].
  destruct (operation_kinds op) as [(args & E) | [(args & b & E) | (name & entries & ->)]].
  - rewrite (perform_subcommand op args st E), performed_run.
    destruct op; try discriminate E; reflexivity.
  - rewrite (perform_listing_state op args b st E), performed_after.
    destruct op; try discriminate E; reflexivity.
  - cbn [perform]. destruct (fst (List set name true st)) as [err|s] eqn:L.
    + rewrite (Refresh_unlisted name entries st err L). cbn [snd].
      rewrite performed_after. cbn [length]. lia.
    + destruct (Refresh_trace name entries st s L) as (xs & Hh & _ & Hl & _).
      rewrite (performed_app _ _ _ Hh). lia.
Qed.

End Coverage_facts.

Section Constructor_facts.

Context `{Environment}.
Variable LookPath : World -> string -> error + string.

(** X10.  [New] searches for the name [ipset] and for nothing else.  When
    the search fails, [New] fails with the error of the search and gives
    no executor; when it finds [binPath], [New] gives an executor, and
    every subprocess any operation of that executor starts runs the file
    [binPath], with [binPath] as its first argument. *)
Theorem New_binds_found_path (st0 : Sys) :
  match LookPath (world st0) "ipset" with
  | inl err => New LookPath st0 = inl err
  | inr binPath =>
      exists set,
        New LookPath st0 = inr set /\
        forall op st,
          Forall (fun c => cmd_Path c = binPath /\ hd_error (cmd_Args c) = Some binPath)
                 (commands (performed st (snd (perform set op st))))
  end.
Proof.
  unfold New. destruct (LookPath (world st0) "ipset") as [err|binPath];
    [reflexivity|].
  eexists. split; [reflexivity|]. intros op st.
  eapply Forall_impl; [|apply perform_wrapper_commands].
  intros c (P & sub & rest & A & _). cbn [Path] in *. split; [exact P|].
  now rewrite A.
Qed.

End Constructor_facts.

(** * The properties at work in the scripted environment *)

Section Examples.

Import Scripted.
#[local] Existing Instance Scripted.env.

(** [Refresh] on a listing, a create, two adds, a swap and a destroy
    that all succeed. *)
Example Refresh_commands :
  let st := start [exit0 header_listing; exit0 ""; exit0 ""; exit0 ""; exit0 ""; exit0 ""] in
  fst (Refresh ipset "blocklist" ["10.0.0.9"; "10.0.0.8"] st) = None /\
  map cmd_Args (commands (performed st (snd (Refresh ipset "blocklist" ["10.0.0.9"; "10.0.0.8"] st)))) =
  [ ["/usr/sbin/ipset"; "list"; "-o"; "xml"; "blocklist"; "-t"];
    ["/usr/sbin/ipset"; "create"; "blocklist-swptemp"; "hash:ip";
     "family"; "inet"; "hashsize"; "1024"; "maxelem"; "65536"];
    ["/usr/sbin/ipset"; "add"; "blocklist-swptemp"; "10.0.0.9"; "-exist"];
    ["/usr/sbin/ipset"; "add"; "blocklist-swptemp"; "10.0.0.8"; "-exist"];
    ["/usr/sbin/ipset"; "swap"; "blocklist-swptemp"; "blocklist"];
    ["/usr/sbin/ipset"; "destroy"; "blocklist-swptemp"] ].
Proof. vm_compute. split; reflexivity. Qed.

(** C2: the second add fails; the steps before it succeeded; [Refresh]
    returns the error of that add and runs neither the swap nor the
    destroy. *)
Lemma Refresh_failure_policy_witness :
  let st := start [exit0 header_listing; exit0 ""; exit0 ""; exit1 cannot_parse] in
  let entries := ["10.0.0.1"; "10.0.0.300"] in
  let done := [ only_error (List ipset "blocklist" true);
                Create ipset "blocklist-swptemp" "hash:ip"
                       ["family"; "inet"; "hashsize"; "1024"; "maxelem"; "65536"];
                AddUnique ipset "blocklist-swptemp" "10.0.0.1" [] ] in
  let failing := AddUnique ipset "blocklist-swptemp" "10.0.0.300" [] in
  let rest := [ Swap ipset "blocklist-swptemp" "blocklist";
                Destroy ipset "blocklist-swptemp" ] in
  Refresh_steps ipset "blocklist" entries st = done ++ failing :: rest /\
  in_order done st = (None, snd (in_order done st)) /\
  fst (failing (snd (in_order done st))) = Some (errors_New cannot_parse) /\
  Refresh ipset "blocklist" entries st =
    (Some (errors_New cannot_parse), snd (failing (snd (in_order done st)))) /\
  performed (snd (failing (snd (in_order done st))))
            (snd (Refresh ipset "blocklist" entries st)) = [] /\
  ~ In (destroy_temporary ipset "blocklist")
       (commands (performed st (snd (Refresh ipset "blocklist" entries st)))).
Proof.
  intros st entries done failing rest.
  assert (S : Refresh_steps ipset "blocklist" entries st = done ++ failing :: rest)
    by (vm_compute; reflexivity).
  assert (D : in_order done st = (None, snd (in_order done st)))
    by (vm_compute; reflexivity).
  assert (F : fst (failing (snd (in_order done st))) = Some (errors_New cannot_parse))
    by (vm_compute; reflexivity).
  split; [exact S|]. split; [exact D|]. split; [exact F|].
  destruct (Refresh_failure_policy ipset "blocklist" entries st _ done rest failing _ S D F)
    as (R & P & N).
  split; [exact R|]. split; [exact P|]. apply N. discriminate.
Defined.

(** C2: the create step fails because a temporary set was left behind;
    the error [Refresh] returns is not the error of that step. *)
Lemma Refresh_create_error_is_rewritten :
  ~ returns_the_step_error
      ipset "blocklist" ["10.0.0.9"]
      (start [exit0 header_listing; exit1 already_exists]).
Proof.
  intros C.
  specialize (C [only_error (List ipset "blocklist" true)]
                (Create ipset "blocklist-swptemp" "hash:ip"
                        ["family"; "inet"; "hashsize"; "1024"; "maxelem"; "65536"])
                [ AddUnique ipset "blocklist-swptemp" "10.0.0.9" [];
                  Swap ipset "blocklist-swptemp" "blocklist";
                  Destroy ipset "blocklist-swptemp" ]
                (snd (List ipset "blocklist" true
                           (start [exit0 header_listing; exit1 already_exists])))
                (errors_New already_exists)).
  assert (E : forall a b : option error * Sys, a = b -> fst a = fst b)
    by (intros a b ->; reflexivity).
  apply E in C; [| vm_compute; reflexivity ..].
  vm_compute in C. discriminate C.
Qed.

(** C3: a listing scoped to one name that decodes to two records, or to
    none, makes [List] fail; one that decodes to one record makes it
    return that record. *)
Lemma List_exactly_one_witness :
  let two := start [exit0 names_listing] in
  let none := start [exit0 empty_listing] in
  let one := start [exit0 header_listing] in
  (failed (exchange ipset (listing_args ["blocklist"] true) true two) = false /\
   xml_Unmarshal (written_stdout (completion
      (exchange ipset (listing_args ["blocklist"] true) true two)))
   = inr (ipsets [named "blocklist"; named "allowlist"]) /\
   fst (List ipset "blocklist" true two) = inl AmbiguousResultError) /\
  (failed (exchange ipset (listing_args ["blocklist"] true) true none) = false /\
   xml_Unmarshal (written_stdout (completion
      (exchange ipset (listing_args ["blocklist"] true) true none)))
   = inr (ipsets []) /\
   fst (List ipset "blocklist" true none) = inl AmbiguousResultError) /\
  (failed (exchange ipset (listing_args ["blocklist"] true) true one) = false /\
   xml_Unmarshal (written_stdout (completion
      (exchange ipset (listing_args ["blocklist"] true) true one)))
   = inr (ipsets [blocklist []]) /\
   fst (List ipset "blocklist" true one) = inr (blocklist [])).
Proof.
  intros two none one.
  assert (F2 : failed (exchange ipset (listing_args ["blocklist"] true) true two) = false)
    by (vm_compute; reflexivity).
  assert (D2 : xml_Unmarshal (written_stdout (completion
                 (exchange ipset (listing_args ["blocklist"] true) true two)))
               = inr (ipsets [named "blocklist"; named "allowlist"]))
    by (vm_compute; reflexivity).
  assert (F0 : failed (exchange ipset (listing_args ["blocklist"] true) true none) = false)
    by (vm_compute; reflexivity).
  assert (D0 : xml_Unmarshal (written_stdout (completion
                 (exchange ipset (listing_args ["blocklist"] true) true none)))
               = inr (ipsets []))
    by (vm_compute; reflexivity).
  assert (F1 : failed (exchange ipset (listing_args ["blocklist"] true) true one) = false)
    by (vm_compute; reflexivity).
  assert (D1 : xml_Unmarshal (written_stdout (completion
                 (exchange ipset (listing_args ["blocklist"] true) true one)))
               = inr (ipsets [blocklist []]))
    by (vm_compute; reflexivity).
  split; [|split]; (split; [assumption|]); (split; [assumption|]).
  - apply (proj1 (List_exactly_one ipset "blocklist" true two _ F2 D2)).
    cbn. discriminate.
  - apply (proj1 (List_exactly_one ipset "blocklist" true none _ F0 D0)).
    cbn. discriminate.
  - apply (proj2 (List_exactly_one ipset "blocklist" true one _ F1 D1)).
    reflexivity.
Defined.

(** C4: [List] with the members suppressed puts [-t] after the name, not
    before it. *)
Lemma List_flag_follows_name :
  let st := start [exit0 header_listing] in
  commands (performed st (snd (List ipset "blocklist" true st))) <>
  [ invocation ipset (listing_args_in_spec true (Some "blocklist")) true ].
Proof. vm_compute. intros E. discriminate E. Qed.

(** C4: the command [List] starts for the set [blocklist] with the
    members suppressed. *)
Lemma listing_command_witness :
  let st := start [exit0 header_listing] in
  listing_request (OpList "blocklist" true) = Some (["blocklist"], true) /\
  commands (performed st (snd (perform ipset (OpList "blocklist" true) st))) =
  [ {| cmd_Path := "/usr/sbin/ipset";
       cmd_Args := ["/usr/sbin/ipset"; "list"; "-o"; "xml"; "blocklist"; "-t"];
       cmd_Stdout := true |} ].
Proof.
  intros st. split; [reflexivity|].
  exact (listing_command ipset (OpList "blocklist" true) ["blocklist"] true st eq_refl).
Defined.

(** C5: [ListSetNames] puts [-n] after [-o xml], not before it. *)
Lemma ListSetNames_flag_is_last :
  let st := start [exit0 names_listing] in
  commands (performed st (snd (ListSetNames ipset st))) <>
  [ invocation ipset names_args_in_spec true ].
Proof. vm_compute. intros E. discriminate E. Qed.

(** C5: the names of a listing of two sets, in the order of the listing. *)
Lemma ListSetNames_names_witness :
  let st := start [exit0 names_listing] in
  failed (exchange ipset ["list"; "-o"; "xml"; "-n"] true st) = false /\
  xml_Unmarshal (written_stdout (completion
     (exchange ipset ["list"; "-o"; "xml"; "-n"] true st)))
  = inr (ipsets [named "blocklist"; named "allowlist"]) /\
  fst (ListSetNames ipset st) = inr ["blocklist"; "allowlist"].
Proof.
  intros st.
  assert (F : failed (exchange ipset ["list"; "-o"; "xml"; "-n"] true st) = false)
    by (vm_compute; reflexivity).
  assert (D : xml_Unmarshal (written_stdout (completion
                (exchange ipset ["list"; "-o"; "xml"; "-n"] true st)))
              = inr (ipsets [named "blocklist"; named "allowlist"]))
    by (vm_compute; reflexivity).
  split; [exact F|]. split; [exact D|].
  exact (proj2 (ListSetNames_names ipset st) _ F D).
Defined.

(** [Destroy] with the empty name, answered the way the binary answers a
    name that no set has. *)
Example Destroy_empty_name_run :
  let st := start [exit1 no_such_set] in
  fst (Destroy ipset "" st) = Some (errors_New no_such_set) /\
  map cmd_Args (commands (performed st (snd (Destroy ipset "" st)))) =
  [ ["/usr/sbin/ipset"; "destroy"; ""] ].
Proof. vm_compute. split; reflexivity. Qed.

(** C7: the create step of [Refresh] exits with status 1; the message
    [Refresh] returns is not the text that step wrote to stderr. *)
Lemma Refresh_create_message_has_prefix :
  ~ reports_stderr_verbatim
      ipset (OpRefresh "blocklist" ["192.168.1.1"; "192.168.1.2"])
      (start [exit0 header_listing; exit1 already_exists]).
Proof.
  intros C.
  destruct (C (create_step (exit1 already_exists)) 1%Z) as (err & R & M);
    [vm_compute; reflexivity | reflexivity | discriminate |].
  vm_compute in R. injection R as <-. vm_compute in M. discriminate M.
Qed.

(** C7: an [Add] that exits with status 1 hands on the text written to
    stderr, a [Swap] that exits with status 0 succeeds, and a [Refresh]
    whose create step exits with status 1 hands on that text after its
    prefix. *)
Lemma exit_status_report_witness :
  let st_add := start [exit1 already_added] in
  let x_add := exchange ipset ["add"; "blocklist"; "10.0.0.1"] false st_add in
  let st_swap := start [exit0 ""] in
  let x_swap := exchange ipset ["swap"; "blocklist-swptemp"; "blocklist"] false st_swap in
  let st_refresh := start [exit0 header_listing; exit1 already_exists] in
  let x_create := create_step (exit1 already_exists) in
  (final (performed st_add (snd (perform ipset (OpAdd "blocklist" "10.0.0.1" []) st_add)))
   = Some x_add /\
   fst (perform ipset (OpAdd "blocklist" "10.0.0.1" []) st_add)
   = Some (errors_New already_added)) /\
  (final (performed st_swap
            (snd (perform ipset (OpSwap "blocklist-swptemp" "blocklist") st_swap)))
   = Some x_swap /\
   fst (perform ipset (OpSwap "blocklist-swptemp" "blocklist") st_swap) = None) /\
  (final (performed st_refresh
            (snd (perform ipset (OpRefresh "blocklist" []) st_refresh)))
   = Some x_create /\
   fst (perform ipset (OpRefresh "blocklist" []) st_refresh)
   = Some (errors_New (create_failure_prefix ++ already_exists)%string)).
Proof.
  intros st_add x_add st_swap x_swap st_refresh x_create.
  assert (Ea : final (performed st_add
                 (snd (perform ipset (OpAdd "blocklist" "10.0.0.1" []) st_add)))
               = Some x_add) by (vm_compute; reflexivity).
  assert (Es : final (performed st_swap
                 (snd (perform ipset (OpSwap "blocklist-swptemp" "blocklist") st_swap)))
               = Some x_swap) by (vm_compute; reflexivity).
  assert (Er : final (performed st_refresh
                 (snd (perform ipset (OpRefresh "blocklist" []) st_refresh)))
               = Some x_create) by (vm_compute; reflexivity).
  split; [|split]; (split; [assumption|]).
  - apply (proj1 (exit_status_report ipset _ st_add x_add Ea) 1%Z);
      [reflexivity | discriminate].
  - apply (proj2 (exit_status_report ipset _ st_swap x_swap Es)); reflexivity.
  - apply (proj1 (exit_status_report ipset _ st_refresh x_create Er) 1%Z);
      [reflexivity | discriminate].
Defined.

(** C10: the create step of [Refresh] cannot be started and nothing is
    written to stderr; the message [Refresh] returns is not empty. *)
Lemma Refresh_silent_create_message_not_empty :
  ~ silent_failure_gives_empty_message
      ipset (OpRefresh "blocklist" ["10.0.0.9"])
      (start [exit0 header_listing; cannot_start]).
Proof.
  intros C.
  destruct (C (create_step cannot_start)) as (err & R & M);
    [vm_compute; reflexivity | reflexivity | reflexivity |].
  vm_compute in R. injection R as <-. vm_compute in M. discriminate M.
Qed.

(** C10: a [Destroy] and a [ListSetNames] whose subprocess cannot be
    started, and so writes nothing to stderr, fail with the empty
    message. *)
Lemma failure_report_keeps_stderr_only_witness :
  let st_destroy := start [cannot_start] in
  let x_destroy := exchange ipset ["destroy"; "blocklist"] false st_destroy in
  let st_names := start [] in
  let x_names := exchange ipset ["list"; "-o"; "xml"; "-n"] true st_names in
  (final (performed st_destroy (snd (perform ipset (OpDestroy "blocklist") st_destroy)))
   = Some x_destroy /\
   failed x_destroy = true /\
   fst (perform ipset (OpDestroy "blocklist") st_destroy) = Some (errors_New "")) /\
  (final (performed st_names (snd (perform ipset OpListSetNames st_names)))
   = Some x_names /\
   failed x_names = true /\
   stderr_text x_names = "" /\
   exists err, fst (perform ipset OpListSetNames st_names) = Some err /\ Error err = "").
Proof.
  intros st_destroy x_destroy st_names x_names.
  assert (Ed : final (performed st_destroy
                 (snd (perform ipset (OpDestroy "blocklist") st_destroy)))
               = Some x_destroy) by (vm_compute; reflexivity).
  assert (Fd : failed x_destroy = true) by (vm_compute; reflexivity).
  assert (En : final (performed st_names (snd (perform ipset OpListSetNames st_names)))
               = Some x_names) by (vm_compute; reflexivity).
  assert (Fn : failed x_names = true) by (vm_compute; reflexivity).
  split; (split; [assumption|]); (split; [assumption|]).
  - exact (proj1 (failure_report_keeps_stderr_only ipset _ st_destroy x_destroy Ed Fd)).
  - split; [reflexivity|].
    exact (proj2 (failure_report_keeps_stderr_only ipset _ st_names x_names En Fn) eq_refl).
Defined.

(** C9: the two members of the listed set, in the order of the listing. *)
Lemma ListEntries_elements_witness :
  let st := start [exit0 full_listing] in
  List ipset "blocklist" false st =
    (inr (blocklist [member "10.0.0.1"; member "10.0.0.2"]),
     snd (List ipset "blocklist" false st)) /\
  ListEntries ipset "blocklist" st =
    (inr ["10.0.0.1"; "10.0.0.2"], snd (List ipset "blocklist" false st)).
Proof.
  intros st.
  assert (L : List ipset "blocklist" false st =
              (inr (blocklist [member "10.0.0.1"; member "10.0.0.2"]),
               snd (List ipset "blocklist" false st)))
    by (vm_compute; reflexivity).
  split; [exact L|].
  exact (ListEntries_elements ipset "blocklist" st _ _ L).
Defined.

End Examples.

(** * The further properties at work in the scripted environment *)

Section Coverage_examples.

Import Scripted.
#[local] Existing Instance Scripted.env.

(** X1: a [Create] with a single option word, which is passed on as it
    is. *)
Lemma subcommand_command_witness :
  let st := start [exit0 ""] in
  subcommand_args (OpCreate "blocklist" "hash:ip" ["timeout"])
  = Some ["create"; "blocklist"; "hash:ip"; "timeout"] /\
  commands (performed st (snd (perform ipset (OpCreate "blocklist" "hash:ip" ["timeout"]) st)))
  = [ {| cmd_Path := "/usr/sbin/ipset";
         cmd_Args := ["/usr/sbin/ipset"; "create"; "blocklist"; "hash:ip"; "timeout"];
         cmd_Stdout := false |} ].
Proof.
  intros st. split; [reflexivity|].
  exact (subcommand_command ipset (OpCreate "blocklist" "hash:ip" ["timeout"]) _ st eq_refl).
Defined.

(** X2: a listing without any set. *)
Lemma ListSets_all_records_witness :
  let st := start [exit0 empty_listing] in
  failed (exchange ipset (listing_args [] false) true st) = false /\
  xml_Unmarshal (written_stdout (completion
     (exchange ipset (listing_args [] false) true st))) = inr (ipsets []) /\
  fst (ListSets ipset false st) = inr [].
Proof.
  intros st.
  assert (F : failed (exchange ipset (listing_args [] false) true st) = false)
    by (vm_compute; reflexivity).
  assert (D : xml_Unmarshal (written_stdout (completion
                (exchange ipset (listing_args [] false) true st))) = inr (ipsets []))
    by (vm_compute; reflexivity).
  split; [exact F|]. split; [exact D|].
  exact (ListSets_all_records ipset false st _ F D).
Defined.

(** X3: the reference count of the listed set, and a listing of two
    sets. *)
Lemma GetReferences_count_witness :
  let one := start [exit0 header_listing] in
  let two := start [exit0 names_listing] in
  (failed (exchange ipset ["list"; "-o"; "xml"; "blocklist"; "-t"] true one) = false /\
   xml_Unmarshal (written_stdout (completion
      (exchange ipset ["list"; "-o"; "xml"; "blocklist"; "-t"] true one)))
   = inr (ipsets [blocklist []]) /\
   fst (GetReferences ipset "blocklist" one) = inr 1%Z) /\
  (failed (exchange ipset ["list"; "-o"; "xml"; "blocklist"; "-t"] true two) = false /\
   xml_Unmarshal (written_stdout (completion
      (exchange ipset ["list"; "-o"; "xml"; "blocklist"; "-t"] true two)))
   = inr (ipsets [named "blocklist"; named "allowlist"]) /\
   fst (GetReferences ipset "blocklist" two) = inl AmbiguousResultError).
Proof.
  intros one two.
  assert (F1 : failed (exchange ipset ["list"; "-o"; "xml"; "blocklist"; "-t"] true one)
               = false) by (vm_compute; reflexivity).
  assert (D1 : xml_Unmarshal (written_stdout (completion
                 (exchange ipset ["list"; "-o"; "xml"; "blocklist"; "-t"] true one)))
               = inr (ipsets [blocklist []])) by (vm_compute; reflexivity).
  assert (F2 : failed (exchange ipset ["list"; "-o"; "xml"; "blocklist"; "-t"] true two)
               = false) by (vm_compute; reflexivity).
  assert (D2 : xml_Unmarshal (written_stdout (completion
                 (exchange ipset ["list"; "-o"; "xml"; "blocklist"; "-t"] true two)))
               = inr (ipsets [named "blocklist"; named "allowlist"]))
    by (vm_compute; reflexivity).
  split; (split; [assumption|]); (split; [assumption|]).
  - exact (proj1 (GetReferences_count ipset "blocklist" one _ F1 D1) _ eq_refl).
  - apply (proj2 (GetReferences_count ipset "blocklist" two _ F2 D2)).
    cbn. discriminate.
Defined.

(** X4: a set with two members, a set without members, and a listing
    without any set. *)
Lemma ListEntries_of_listing_witness :
  let full := start [exit0 full_listing] in
  let bare := start [exit0 header_listing] in
  let none := start [exit0 empty_listing] in
  (failed (exchange ipset ["list"; "-o"; "xml"; "blocklist"] true full) = false /\
   xml_Unmarshal (written_stdout (completion
      (exchange ipset ["list"; "-o"; "xml"; "blocklist"] true full)))
   = inr (ipsets [blocklist [member "10.0.0.1"; member "10.0.0.2"]]) /\
   fst (ListEntries ipset "blocklist" full) = inr ["10.0.0.1"; "10.0.0.2"]) /\
  (failed (exchange ipset ["list"; "-o"; "xml"; "blocklist"] true bare) = false /\
   xml_Unmarshal (written_stdout (completion
      (exchange ipset ["list"; "-o"; "xml"; "blocklist"] true bare)))
   = inr (ipsets [blocklist []]) /\
   fst (ListEntries ipset "blocklist" bare) = inr []) /\
  (failed (exchange ipset ["list"; "-o"; "xml"; "blocklist"] true none) = false /\
   xml_Unmarshal (written_stdout (completion
      (exchange ipset ["list"; "-o"; "xml"; "blocklist"] true none)))
   = inr (ipsets []) /\
   fst (ListEntries ipset "blocklist" none) = inl AmbiguousResultError).
Proof.
  intros full bare none.
  assert (F1 : failed (exchange ipset ["list"; "-o"; "xml"; "blocklist"] true full) = false)
    by (vm_compute; reflexivity).
  assert (D1 : xml_Unmarshal (written_stdout (completion
                 (exchange ipset ["list"; "-o"; "xml"; "blocklist"] true full)))
               = inr (ipsets [blocklist [member "10.0.0.1"; member "10.0.0.2"]]))
    by (vm_compute; reflexivity).
  assert (F2 : failed (exchange ipset ["list"; "-o"; "xml"; "blocklist"] true bare) = false)
    by (vm_compute; reflexivity).
  assert (D2 : xml_Unmarshal (written_stdout (completion
                 (exchange ipset ["list"; "-o"; "xml"; "blocklist"] true bare)))
               = inr (ipsets [blocklist []])) by (vm_compute; reflexivity).
  assert (F3 : failed (exchange ipset ["list"; "-o"; "xml"; "blocklist"] true none) = false)
    by (vm_compute; reflexivity).
  assert (D3 : xml_Unmarshal (written_stdout (completion
                 (exchange ipset ["list"; "-o"; "xml"; "blocklist"] true none)))
               = inr (ipsets [])) by (vm_compute; reflexivity).
  split; [|split]; (split; [assumption|]); (split; [assumption|]).
  - exact (proj1 (ListEntries_of_listing ipset "blocklist" full _ F1 D1) _ eq_refl).
  - exact (proj1 (ListEntries_of_listing ipset "blocklist" bare _ F2 D2) _ eq_refl).
  - apply (proj2 (ListEntries_of_listing ipset "blocklist" none _ F3 D3)).
    cbn. discriminate.
Defined.

(** X5: a listing that was cut short. *)
Lemma listing_decode_error_witness :
  let st := start [exit0 "<ipsets><ipset name='blocklist'>"] in
  listing_request OpListSetNames = Some (["-n"], false) /\
  failed (exchange ipset (listing_args ["-n"] false) true st) = false /\
  xml_Unmarshal (written_stdout (completion
     (exchange ipset (listing_args ["-n"] false) true st)))
  = inl (UnmarshalError "EOF") /\
  fst (perform ipset OpListSetNames st) = Some (UnmarshalError "EOF").
Proof.
  intros st.
  assert (F : failed (exchange ipset (listing_args ["-n"] false) true st) = false)
    by (vm_compute; reflexivity).
  assert (D : xml_Unmarshal (written_stdout (completion
                (exchange ipset (listing_args ["-n"] false) true st)))
              = inl (UnmarshalError "EOF")) by (vm_compute; reflexivity).
  split; [reflexivity|]. split; [exact F|]. split; [exact D|].
  exact (listing_decode_error ipset OpListSetNames _ _ st _ eq_refl F D).
Defined.

(** X6: a refresh with the same entry given twice. *)
Lemma Refresh_success_plan_witness :
  let st := start [exit0 header_listing; exit0 ""; exit0 ""; exit0 ""; exit0 ""; exit0 ""] in
  let entries := ["10.0.0.9"; "10.0.0.9"] in
  fst (Refresh ipset "blocklist" entries st) = None /\
  exists s,
    fst (List ipset "blocklist" true st) = inr s /\
    commands (performed st (snd (Refresh ipset "blocklist" entries st))) =
      Refresh_plan ipset "blocklist" entries s /\
    Forall succeeded (performed st (snd (Refresh ipset "blocklist" entries st))).
Proof.
  intros st entries.
  assert (N : fst (Refresh ipset "blocklist" entries st) = None)
    by (vm_compute; reflexivity).
  split; [exact N|].
  exact (Refresh_success_plan ipset "blocklist" entries st N).
Defined.

(** X7: the first of two adds fails; the listing, the creation and that
    add ran, and nothing after it. *)
Lemma Refresh_runs_prefix_witness :
  let st := start [exit0 header_listing; exit0 ""; exit1 cannot_parse] in
  let entries := ["10.0.0.300"; "10.0.0.1"] in
  let xs := performed st (snd (Refresh ipset "blocklist" entries st)) in
  fst (List ipset "blocklist" true st) = inr (blocklist []) /\
  commands xs = firstn (length xs) (Refresh_plan ipset "blocklist" entries (blocklist [])) /\
  2 <= length xs <= length entries + 4 /\
  Forall succeeded (removelast xs) /\
  (fst (Refresh ipset "blocklist" entries st) = None <-> Forall succeeded xs).
Proof.
  intros st entries xs.
  assert (L : fst (List ipset "blocklist" true st) = inr (blocklist []))
    by (vm_compute; reflexivity).
  split; [exact L|].
  exact (Refresh_runs_prefix ipset "blocklist" entries st _ L).
Defined.

(** X8: a refresh of a set that does not exist. *)
Lemma Refresh_unlisted_target_witness :
  let st := start [exit1 no_such_set] in
  fst (List ipset "blocklist" true st) = inl (errors_New no_such_set) /\
  fst (Refresh ipset "blocklist" ["10.0.0.1"] st) = Some (errors_New no_such_set) /\
  commands (performed st (snd (Refresh ipset "blocklist" ["10.0.0.1"] st))) =
  [ {| cmd_Path := "/usr/sbin/ipset";
       cmd_Args := ["/usr/sbin/ipset"; "list"; "-o"; "xml"; "blocklist"; "-t"];
       cmd_Stdout := true |} ].
Proof.
  intros st.
  assert (L : fst (List ipset "blocklist" true st) = inl (errors_New no_such_set))
    by (vm_compute; reflexivity).
  split; [exact L|].
  exact (Refresh_unlisted_target ipset "blocklist" ["10.0.0.1"] st _ L).
Defined.

(** [New] where [ipset] is installed and where it is not. *)
Example New_installed :
  New Lookup.installed (start []) = inr ipset.
Proof. reflexivity. Qed.

Example New_missing :
  New Lookup.missing (start [])
  = inl (errorString "exec: executable file not found in $PATH").
Proof. reflexivity. Qed.

End Coverage_examples.
